(* ===================================================================== *)
(* Venda cruzada (VennV2.py): a shallow embedding of the cross-sell       *)
(* analysis, the filter step and the three detail tables, with the       *)
(* properties of the specification stated and settled against it.        *)
(* ===================================================================== *)
(* Modelling conventions.
   - A pandas DataFrame of sales is a list of rows, in scan order.
   - Identifiers (cliente, mercadoria) are integers; dates are integers
     (an ordinal of the calendar date); nullable text columns are
     [option string], [None] standing for NULL/NaN.
   - The numeric columns quant and valor_liq hold, cell by cell, what the
     pandas column holds: a 64-bit integer (int64) or a binary64 float
     (float64, NaN standing for NULL).  Sums over an int64 column wrap
     around modulo 2^64; the float64 sum is not evaluated, the model keeps
     its addends in scan order.
   - The conversion rate is an exact rational: its binary floating point
     rounding is idealised.
   - Python sets of customers are [gset Z]; len(...) is [size]. *)

From Stdlib Require Import QArith Floats.
From stdpp Require Import gmap strings list sorting.

#[local] Set Warnings "-clear-no-such-hyp".

Open Scope Z_scope.

(* --------------------------------------------------------------------- *)
(* Data model: one row of the query of load_data                         *)
(* --------------------------------------------------------------------- *)

(* A cell of a numeric column.  read_sql_query gives a column one dtype:
   int64 when the query returns integers only, float64 otherwise (a NULL
   among integers turns the whole column into floats, and is NaN there). *)
Inductive Numero :=
  | Inteiro (z : Z)
  | Real (f : float).

Record Venda := {
  cliente : Z;
  mercadoria : Z;
  data_emissao : Z;
  valor_liq : Numero;
  quant : Numero;
  vendedor : option string;
  cidade : option string;
  raz_social : option string;
  atividade : option string;
  rede : option string;
  descricao_produto : option string
}.

Abbreviation DataFrame := (list Venda).

(* --------------------------------------------------------------------- *)
(* pandas primitives used by the script                                  *)
(* --------------------------------------------------------------------- *)

(* Series.unique(): distinct values in order of first appearance. *)
Fixpoint unique {A} `{EqDecision A} (l : list A) : list A :=
  match l with
  | [] => []
  | x :: l' => x :: filter (λ y, y ≠ x) (unique l')
  end.

(* df[df['mercadoria'] == p] *)
Definition com_mercadoria (p : Z) (df : DataFrame) : DataFrame :=
  filter (λ r, mercadoria r = p) df.

(* --------------------------------------------------------------------- *)
(* analisar_venda_cruzada                                                *)
(* --------------------------------------------------------------------- *)

Record Resultado := {
  clientes_a : gset Z;
  clientes_b : gset Z;
  apenas_a : gset Z;
  apenas_b : gset Z;
  ambos : gset Z;
  total_a : nat;
  total_b : nat;
  count_apenas_a : nat;
  count_apenas_b : nat;
  count_ambos : nat
}.

Definition clientes_de (df : DataFrame) (p : Z) : gset Z :=
  list_to_set (unique (cliente <$> com_mercadoria p df)).

Definition analisar_venda_cruzada (df : DataFrame) (produto_a produto_b : Z)
  : Resultado :=
  let clientes_a := clientes_de df produto_a in
  let clientes_b := clientes_de df produto_b in
  let apenas_a := clientes_a ∖ clientes_b in
  let apenas_b := clientes_b ∖ clientes_a in
  let ambos := clientes_a ∩ clientes_b in
  {| clientes_a := clientes_a;
     clientes_b := clientes_b;
     apenas_a := apenas_a;
     apenas_b := apenas_b;
     ambos := ambos;
     total_a := size clientes_a;
     total_b := size clientes_b;
     count_apenas_a := size apenas_a;
     count_apenas_b := size apenas_b;
     count_ambos := size ambos |}.

(* The validation of main that precedes the call of the analyzer. *)
Inductive Analise :=
  | ProdutosIguais (aviso : string)
  | Analisado (resultado : Resultado).

Definition main_analise (df_filtrado : DataFrame) (produto_a produto_b : Z)
  : Analise :=
  if decide (produto_a = produto_b)
  then ProdutosIguais "Por favor, selecione produtos diferentes para Produto A e Produto B."
  else Analisado (analisar_venda_cruzada df_filtrado produto_a produto_b).

(* Python's true division of two lengths: ZeroDivisionError is [None]. *)
Definition truediv (a b : nat) : option Q :=
  match b with
  | O => None
  | S _ => Some (Z.of_nat a # Pos.of_nat b)
  end.

(* taxa_conversao, as computed in main and in criar_diagrama_venn:
   (count_ambos / total_a * 100) if total_a > 0 else 0 *)
Definition taxa_conversao (resultado : Resultado) : option Q :=
  if decide (0 < total_a resultado)%nat
  then q ← truediv (count_ambos resultado) (total_a resultado);
       Some (q * 100)%Q
  else Some 0%Q.

(* --------------------------------------------------------------------- *)
(* Specification side: who bought a product                              *)
(* --------------------------------------------------------------------- *)

(* [comprou df p c]: some record of df has product p and customer c. *)
Definition comprou (df : DataFrame) (p c : Z) : Prop :=
  ∃ r, r ∈ df ∧ mercadoria r = p ∧ cliente r = c.

(* --------------------------------------------------------------------- *)
(* The filter step of main                                               *)
(* --------------------------------------------------------------------- *)

(* Series.isin(values): a NULL attribute is in no list of strings. *)
Definition isin (valor : option string) (valores : list string) : bool :=
  match valor with
  | Some s => bool_decide (s ∈ valores)
  | None => false
  end.

(* if sentinela not in selecao and len(selecao) > 0:
       df_filtrado = df_filtrado[df_filtrado[coluna].isin(selecao)] *)
Definition filtrar (coluna : Venda → option string) (sentinela : string)
    (selecao : list string) (df_filtrado : DataFrame) : DataFrame :=
  if decide ((sentinela ∉ selecao) ∧ (0 < length selecao)%nat)
  then filter (λ r, isin (coluna r) selecao) df_filtrado
  else df_filtrado.

Definition aplicar_filtros (df : DataFrame)
    (cidade_selecionada vendedor_selecionado
     atividade_selecionada rede_selecionada : list string) : DataFrame :=
  let df_filtrado := df in
  let df_filtrado := filtrar cidade "Todas" cidade_selecionada df_filtrado in
  let df_filtrado := filtrar vendedor "Todos" vendedor_selecionado df_filtrado in
  let df_filtrado := filtrar atividade "Todas" atividade_selecionada df_filtrado in
  let df_filtrado := filtrar rede "Todas" rede_selecionada df_filtrado in
  df_filtrado.

(* Specification side of the filter engine: a field is either without
   restriction or carries a set of accepted values; the restrictions are
   taken together. *)
Inductive Restricao :=
  | SemRestricao
  | Aceitos (valores : list string).

Record Filtros := {
  f_cidade : Restricao;
  f_vendedor : Restricao;
  f_atividade : Restricao;
  f_rede : Restricao
}.

Definition aceita (x : Restricao) (valor : option string) : Prop :=
  match x with
  | SemRestricao => True
  | Aceitos valores => ∃ s, valor = Some s ∧ s ∈ valores
  end.

Definition passa (f : Filtros) (r : Venda) : Prop :=
  aceita (f_cidade f) (cidade r) ∧ aceita (f_vendedor f) (vendedor r) ∧
  aceita (f_atividade f) (atividade r) ∧ aceita (f_rede f) (rede r).

#[global] Instance aceita_dec x valor : Decision (aceita x valor).
Proof.
  destruct x as [|valores]; simpl; [apply _|].
  destruct valor as [s|].
  - destruct (decide (s ∈ valores)); [left; eauto|right; naive_solver].
  - right; naive_solver.
Defined.

#[global] Instance passa_dec f r : Decision (passa f r).
Proof. unfold passa. apply _. Defined.

(* What a widget selection means: the sentinel among the selected values,
   or nothing selected, is no restriction; anything else is the accepted
   set. *)
Definition restricao_de (sentinela : string) (selecao : list string)
  : Restricao :=
  if decide (sentinela ∈ selecao ∨ selecao = [])
  then SemRestricao else Aceitos selecao.

Definition filtros_de (cidade_selecionada vendedor_selecionado
    atividade_selecionada rede_selecionada : list string) : Filtros :=
  {| f_cidade := restricao_de "Todas" cidade_selecionada;
     f_vendedor := restricao_de "Todos" vendedor_selecionado;
     f_atividade := restricao_de "Todas" atividade_selecionada;
     f_rede := restricao_de "Todas" rede_selecionada |}.

(* --------------------------------------------------------------------- *)
(* groupby('cliente').agg({...})                                         *)
(* --------------------------------------------------------------------- *)

(* 'first' and 'last': the first (last) value of the group that is not
   null, null when there is none. *)
Fixpoint agg_first {A} (l : list (option A)) : option A :=
  match l with
  | [] => None
  | Some x :: _ => Some x
  | None :: l' => agg_first l'
  end.

Definition agg_last {A} (l : list (option A)) : option A :=
  agg_first (reverse l).

(* 'max' of a column without nulls.  groupby only emits groups that have
   a row, so the value at [] is never used. *)
Definition agg_max (l : list Z) : Z :=
  match l with
  | [] => 0
  | x :: l' => foldl Z.max x l'
  end.

(* The value of a signed 64-bit register that was assigned z. *)
Definition wrap64 (z : Z) : Z := (z + 2 ^ 63) `mod` 2 ^ 64 - 2 ^ 63.

(* The int64 values of the cells, when every cell holds one. *)
Fixpoint inteiros (l : list Numero) : option (list Z) :=
  match l with
  | [] => Some []
  | Inteiro z :: l' => (z ::.) <$> inteiros l'
  | Real _ :: _ => None
  end.

(* isna on a cell *)
Definition nulo (x : Numero) : bool :=
  match x with
  | Inteiro _ => false
  | Real f => is_nan f
  end.

(* The cell 'sum' leaves for a group.  On an int64 column the running
   total sumx starts at 0 and takes sumx + val for every row of the
   group, in a 64-bit register.  On a float64 column the cells that are
   NaN are skipped and the others are added up in float64, which gives
   0.0 when all are skipped; the rounding of that sum is not modelled:
   the cell records its addends, in scan order. *)
Inductive Soma :=
  | SomaInt64 (z : Z)
  | SomaFloat64 (parcelas : list Numero).

(* 'sum' *)
Definition agg_sum (l : list Numero) : Soma :=
  match inteiros l with
  | Some zs => SomaInt64 (foldl (λ sumx val, wrap64 (sumx + val)) 0 zs)
  | None => SomaFloat64 (filter (λ x, ¬ nulo x) l)
  end.

(* groupby('cliente'), sort=True: one group per distinct key, the keys in
   ascending order, each group holding its rows in scan order. *)
Definition chaves (df : DataFrame) : list Z :=
  merge_sort Z.le (unique (cliente <$> df)).

Definition grupo (df : DataFrame) (k : Z) : DataFrame :=
  filter (λ r, cliente r = k) df.

Definition groupby_cliente (df : DataFrame) : list (Z * DataFrame) :=
  (λ k, (k, grupo df k)) <$> chaves df.

(* --------------------------------------------------------------------- *)
(* sort_values(by, ascending=False)                                      *)
(* --------------------------------------------------------------------- *)

(* DataFrame.take(indexer).  The indexers built below are always within
   range (pandas would raise otherwise). *)
Definition take_idx {A} (l : list A) (indexer : list nat) : list A :=
  omap (λ i, l !! i) indexer.

(* sort_values is called without kind=, so pandas sorts with numpy's
   default algorithm ('quicksort'), which is not one of its stable kinds.
   The algorithm is a collaborator of the script: it enters the model as an
   interface that gives the argsort function and what numpy guarantees of
   it for every kind, namely that the result lists every position once and
   that the items read in that order ascend. *)
Record Argsort := {
  argsort : list Z → list nat;
  argsort_perm : ∀ items, argsort items ≡ₚ seq 0 (length items);
  argsort_sorted : ∀ items, Sorted Z.le (take_idx items (argsort items))
}.

(* pandas.core.sorting.nargsort with ascending=False on a column without
   nulls: the items and their positions are reversed, sorted ascending, and
   the resulting indexer is reversed again. *)
Definition nargsort_desc (S : Argsort) (items : list Z) : list nat :=
  let idx := seq 0 (length items) in
  let non_nans := reverse items in
  let non_nan_idx := reverse idx in
  let indexer := take_idx non_nan_idx (argsort S non_nans) in
  reverse indexer.

Definition sort_values_desc {A} (S : Argsort) (by_ : A → Z) (df : list A)
  : list A :=
  take_idx df (nargsort_desc S (by_ <$> df)).

(* A sort is stable when, for every key, the rows of that key come out in
   the order in which they went in. *)
Definition estavel {A} (by_ : A → Z) (entrada saida : list A) : Prop :=
  ∀ k, filter (λ x, by_ x = k) saida = filter (λ x, by_ x = k) entrada.

(* Sorting kinds.  An argsort obtained by sorting the pairs
   (item, position) along a relation R on such pairs; how R compares two
   pairs of equal items decides where ties end up. *)
Definition argsort_por (R : relation (Z * nat)) `{∀ x y, Decision (R x y)}
    (items : list Z) : list nat :=
  (merge_sort R (zip items (seq 0 (length items)))).*2.

(* Two ways of ordering ties, for the sake of comparison: by ascending
   position (what kind='stable' gives) and by descending position.
   Neither is meant as numpy's default kernel. *)
Definition R_estavel (x y : Z * nat) : Prop :=
  x.1 < y.1 ∨ (x.1 = y.1 ∧ (x.2 ≤ y.2)%nat).

Definition R_inverte (x y : Z * nat) : Prop :=
  x.1 < y.1 ∨ (x.1 = y.1 ∧ (y.2 ≤ x.2)%nat).

#[global] Instance R_estavel_dec x y : Decision (R_estavel x y).
Proof. unfold R_estavel. apply _. Defined.

#[global] Instance R_inverte_dec x y : Decision (R_inverte x y).
Proof. unfold R_inverte. apply _. Defined.

(* The order of the positions of df that a stable descending sort
   produces: later date first, then earlier position first. *)
Definition antes {A} (by_ : A → Z) (df : list A) (i j : nat) : Prop :=
  ∃ x y, (by_ <$> df) !! i = Some x ∧ (by_ <$> df) !! j = Some y ∧
         (y < x ∨ (x = y ∧ (i ≤ j)%nat)).

(* --------------------------------------------------------------------- *)
(* The detail tables of tab3                                             *)
(* --------------------------------------------------------------------- *)

(* Columns: Cliente, Razão Social, Cidade, Atividade, Rede,
   Último Vendedor, Produto, Última Compra, Qtd Total *)
Module Detalhe.
Record t := {
  Cliente : Z;
  RazaoSocial : option string;
  Cidade : option string;
  Atividade : option string;
  Rede : option string;
  UltimoVendedor : option string;
  Produto : option string;
  UltimaCompra : Z;
  QtdTotal : Soma
}.
End Detalhe.

(* Columns: Cliente, Razão Social, Cidade, Atividade, Rede,
   Último Vendedor, Última Compra, Qtd Total, Produtos *)
Module Ambos.
Record t := {
  Cliente : Z;
  RazaoSocial : option string;
  Cidade : option string;
  Atividade : option string;
  Rede : option string;
  UltimoVendedor : option string;
  UltimaCompra : Z;
  QtdTotal : Soma;
  Produtos : option string
}.
End Ambos.

Definition agg_detalhe (g : Z * DataFrame) : Detalhe.t :=
  {| Detalhe.Cliente := g.1;
     Detalhe.RazaoSocial := agg_first (raz_social <$> g.2);
     Detalhe.Cidade := agg_first (cidade <$> g.2);
     Detalhe.Atividade := agg_first (atividade <$> g.2);
     Detalhe.Rede := agg_first (rede <$> g.2);
     Detalhe.UltimoVendedor := agg_last (vendedor <$> g.2);
     Detalhe.Produto := agg_first (descricao_produto <$> g.2);
     Detalhe.UltimaCompra := agg_max (data_emissao <$> g.2);
     Detalhe.QtdTotal := agg_sum (quant <$> g.2) |}.

(* The boolean masks that decide which transactions feed a table:
   df_filtrado['cliente'].isin(clientes) &
   (df_filtrado['mercadoria'] == produto), and the first conjunct alone. *)
Definition mascara_produto (clientes : gset Z) (produto : Z) (v : Venda)
  : Prop :=
  cliente v ∈ clientes ∧ mercadoria v = produto.

Definition mascara_clientes (clientes : gset Z) (v : Venda) : Prop :=
  cliente v ∈ clientes.

#[global] Instance mascara_produto_dec clientes produto v :
  Decision (mascara_produto clientes produto v).
Proof. unfold mascara_produto. apply _. Defined.

#[global] Instance mascara_clientes_dec clientes v :
  Decision (mascara_clientes clientes v).
Proof. unfold mascara_clientes. apply _. Defined.

Definition do_produto (clientes : gset Z) (produto : Z) (df : DataFrame)
  : DataFrame :=
  filter (mascara_produto clientes produto) df.

Definition dos_clientes (clientes : gset Z) (df : DataFrame) : DataFrame :=
  filter (mascara_clientes clientes) df.

(* The table of a single product, as built for apenas_a and apenas_b:
   first the groups as groupby emits them, then the sort. *)
Definition detalhe_agrupado (df_filtrado : DataFrame) (clientes : gset Z)
    (produto : Z) : list Detalhe.t :=
  agg_detalhe <$> groupby_cliente (do_produto clientes produto df_filtrado).

Definition detalhe_produto (S : Argsort) (df_filtrado : DataFrame)
    (clientes : gset Z) (produto : Z) : list Detalhe.t :=
  sort_values_desc S Detalhe.UltimaCompra
    (detalhe_agrupado df_filtrado clientes produto).

(* if len(resultado['apenas_a']) > 0: ... else: st.info(...) *)
Definition df_apenas_a (S : Argsort) (df_filtrado : DataFrame)
    (resultado : Resultado) (produto_a : Z) : option (list Detalhe.t) :=
  if decide (0 < size (apenas_a resultado))%nat
  then Some (detalhe_produto S df_filtrado (apenas_a resultado) produto_a)
  else None.

Definition df_apenas_b (S : Argsort) (df_filtrado : DataFrame)
    (resultado : Resultado) (produto_b : Z) : option (list Detalhe.t) :=
  if decide (0 < size (apenas_b resultado))%nat
  then Some (detalhe_produto S df_filtrado (apenas_b resultado) produto_b)
  else None.

(* df_prod_a, df_prod_b: columns cliente and desc_a (desc_b). *)
Definition df_prod (df_filtrado : DataFrame) (clientes : gset Z)
    (produto : Z) : list (Z * option string) :=
  (λ g : Z * DataFrame, (g.1, agg_first (descricao_produto <$> g.2))) <$>
    groupby_cliente (do_produto clientes produto df_filtrado).

(* The aggregate of the both-table before the descriptions are merged in:
   cliente, raz_social, cidade, atividade, rede, vendedor, data_emissao,
   quant. *)
Record AggAmbos := {
  g_cliente : Z;
  g_raz_social : option string;
  g_cidade : option string;
  g_atividade : option string;
  g_rede : option string;
  g_vendedor : option string;
  g_data_emissao : Z;
  g_quant : Soma
}.

Definition agg_ambos (g : Z * DataFrame) : AggAmbos :=
  {| g_cliente := g.1;
     g_raz_social := agg_first (raz_social <$> g.2);
     g_cidade := agg_first (cidade <$> g.2);
     g_atividade := agg_first (atividade <$> g.2);
     g_rede := agg_first (rede <$> g.2);
     g_vendedor := agg_last (vendedor <$> g.2);
     g_data_emissao := agg_max (data_emissao <$> g.2);
     g_quant := agg_sum (quant <$> g.2) |}.

(* left.merge(right, on='cliente', how='left'): the rows of left in their
   order, each once per matching row of right, or once with a null when
   right has no row of that key. *)
Definition merge_left {L} (chave : L → Z) (left : list L)
    (right : list (Z * option string)) : list (L * option string) :=
  left ≫= λ l,
    match filter (λ kv : Z * option string, kv.1 = chave l) right with
    | [] => [(l, None)]
    | ms => (λ kv : Z * option string, (l, kv.2)) <$> ms
    end.

(* + on two object columns: null as soon as one operand is null. *)
Definition str_add (a b : option string) : option string :=
  a ← a; b ← b; Some (a +:+ b).

Definition linha_ambos (x : AggAmbos * option string * option string)
  : Ambos.t :=
  let '(g, desc_a, desc_b) := x in
  {| Ambos.Cliente := g_cliente g;
     Ambos.RazaoSocial := g_raz_social g;
     Ambos.Cidade := g_cidade g;
     Ambos.Atividade := g_atividade g;
     Ambos.Rede := g_rede g;
     Ambos.UltimoVendedor := g_vendedor g;
     Ambos.UltimaCompra := g_data_emissao g;
     Ambos.QtdTotal := g_quant g;
     Ambos.Produtos := str_add (str_add desc_a (Some " | ")) desc_b |}.

(* The both-table before its final sort. *)
Definition ambos_agrupado (df_filtrado : DataFrame) (clientes : gset Z)
    (produto_a produto_b : Z) : list Ambos.t :=
  let df_prod_a := df_prod df_filtrado clientes produto_a in
  let df_prod_b := df_prod df_filtrado clientes produto_b in
  let df_ambos := agg_ambos <$> groupby_cliente (dos_clientes clientes df_filtrado) in
  let df_ambos := merge_left g_cliente df_ambos df_prod_a in
  let df_ambos := merge_left (λ x, g_cliente x.1) df_ambos df_prod_b in
  linha_ambos <$> df_ambos.

Definition ambos_ordenado (S : Argsort) (df_filtrado : DataFrame)
    (clientes : gset Z) (produto_a produto_b : Z) : list Ambos.t :=
  sort_values_desc S Ambos.UltimaCompra
    (ambos_agrupado df_filtrado clientes produto_a produto_b).

Definition df_ambos (S : Argsort) (df_filtrado : DataFrame)
    (resultado : Resultado) (produto_a produto_b : Z)
  : option (list Ambos.t) :=
  if decide (0 < size (ambos resultado))%nat
  then Some (ambos_ordenado S df_filtrado (ambos resultado)
               produto_a produto_b)
  else None.

(* The rows on display: those of the table, none where main shows the
   notice that the category has no customer. *)
Definition linhas_de {A} (tabela : option (list A)) : list A :=
  default [] tabela.

(* One row per customer of a partition. *)
Definition uma_por_cliente {A} (chave : A → Z) (particao : gset Z)
    (linhas : list A) : Prop :=
  length linhas = size particao ∧
  NoDup (chave <$> linhas) ∧
  (∀ c, c ∈ chave <$> linhas ↔ c ∈ particao) ∧
  (linhas = [] ↔ particao = ∅).

(* The first description on record, in scan order, among the customer's
   transactions of a product: null when none of them carries one. *)
Definition primeira_descricao (df : DataFrame) (c p : Z) : option string :=
  agg_first (descricao_produto <$>
               filter (λ v, cliente v = c ∧ mercadoria v = p) df).

(* The products field as the specification words it: a missing side
   counts as the empty string. *)
Definition produtos_afirmado (desc_a desc_b : option string) : option string :=
  Some (default "" desc_a +:+ " | " +:+ default "" desc_b).

(* The products field as the script computes it: null as soon as one side
   is missing. *)
Definition produtos_calculado (desc_a desc_b : option string) : option string :=
  match desc_a, desc_b with
  | Some a, Some b => Some (a +:+ " | " +:+ b)
  | _, _ => None
  end.

(* The sum of integers, as arithmetic has it. *)
Fixpoint soma_exata (l : list Z) : Z :=
  match l with
  | [] => 0
  | z :: l' => z + soma_exata l'
  end.

(* The total quantity as the specification words it: the sum of the
   quantities (stated for quantities that are integers). *)
Definition soma_afirmada (quantidades : list Numero) (total : Soma) : Prop :=
  ∀ zs, quantidades = Inteiro <$> zs → total = SomaInt64 (soma_exata zs).

(* The cells that take part in a float64 sum: those that are not NULL. *)
Fixpoint nao_nulos (l : list Numero) : list Numero :=
  match l with
  | [] => []
  | Real f :: l' => if is_nan f then nao_nulos l' else Real f :: nao_nulos l'
  | x :: l' => x :: nao_nulos l'
  end.

(* The total quantity as the column arithmetic gives it.  Integer
   quantities: the sum reduced modulo 2^64 into the signed 64-bit range,
   hence the sum itself when that is in the range.  As soon as one
   quantity is a float: the float64 sum of exactly these cells, the NULL
   ones left out. *)
Definition soma_da_coluna (quantidades : list Numero) (total : Soma) : Prop :=
  (∀ zs, quantidades = Inteiro <$> zs →
     total = SomaInt64 (wrap64 (soma_exata zs)) ∧
     (- 2 ^ 63 ≤ soma_exata zs < 2 ^ 63 →
      total = SomaInt64 (soma_exata zs))) ∧
  ((∃ f, Real f ∈ quantidades) →
   total = SomaFloat64 (nao_nulos quantidades)).





Definition ordenada_desc {A} (by_ : A → Z) (linhas : list A) : Prop :=
  Sorted (λ x y, by_ y ≤ by_ x) linhas.

(* --------------------------------------------------------------------- *)
(* criar_diagrama_venn and criar_grafico_barras: the figures they draw   *)
(* --------------------------------------------------------------------- *)

(* venn2(subsets=(count_apenas_a, count_apenas_b, count_ambos), ...) *)
Definition venn_subsets (resultado : Resultado) : nat * nat * nat :=
  (count_apenas_a resultado, count_apenas_b resultado, count_ambos resultado).

(* total_geral, the "Total Clientes" line of the statistics box. *)
Definition total_geral (resultado : Resultado) : nat :=
  (count_apenas_a resultado + count_apenas_b resultado +
   count_ambos resultado)%nat.

(* criar_grafico_barras: the x and y of the bars. *)
Definition categorias : list string :=
  ["Apenas Produto A"; "Ambos"; "Apenas Produto B"].

Definition valores (resultado : Resultado) : list nat :=
  [count_apenas_a resultado; count_ambos resultado;
   count_apenas_b resultado].

(* --------------------------------------------------------------------- *)
(* The sidebar of main: what the widgets offer and start with            *)
(* --------------------------------------------------------------------- *)

(* Series.dropna() *)
Definition dropna {A} (l : list (option A)) : list A := omap id l.

(* produtos_disponiveis = sorted(df['mercadoria'].unique()) *)
Definition produtos_disponiveis (df : DataFrame) : list Z :=
  merge_sort Z.le (unique (mercadoria <$> df)).

(* The product each selectbox starts with:
   index=0 if len(produtos_disponiveis) > 0 else None, and
   index=1 if len(produtos_disponiveis) > 1 else 0. *)
Definition produto_a_inicial (df : DataFrame) : option Z :=
  if decide (0 < length (produtos_disponiveis df))%nat
  then produtos_disponiveis df !! 0%nat else None.

Definition produto_b_inicial (df : DataFrame) : option Z :=
  produtos_disponiveis df !!
    (if decide (1 < length (produtos_disponiveis df))%nat then 1 else 0)%nat.

(* [sentinela] + sorted(df[coluna].dropna().unique().tolist()) *)
Definition valores_da_coluna (coluna : Venda → option string)
    (df : DataFrame) : list string :=
  merge_sort String.le (unique (dropna (coluna <$> df))).

Definition opcoes (sentinela : string) (coluna : Venda → option string)
    (df : DataFrame) : list string :=
  sentinela :: valores_da_coluna coluna df.

Definition cidades_disponiveis := opcoes "Todas" cidade.
Definition vendedores_disponiveis := opcoes "Todos" vendedor.
Definition atividades_disponiveis := opcoes "Todas" atividade.
Definition redes_disponiveis := opcoes "Todas" rede.

(* load_data returns the rows ORDER BY data_emissao desc. *)
Definition data_decrescente (df : DataFrame) : Prop :=
  StronglySorted (λ v w, data_emissao w ≤ data_emissao v) df.

(* --------------------------------------------------------------------- *)
(* Reading the aggregated columns against the dates                      *)
(* --------------------------------------------------------------------- *)

(* d is the latest date among the records of df that satisfy P. *)
Definition ultima_data (P : Venda → Prop) (df : DataFrame) (d : Z) : Prop :=
  (∃ v, v ∈ df ∧ P v ∧ data_emissao v = d) ∧
  (∀ w, w ∈ df → P w → data_emissao w ≤ d).

(* x is the value of column col in a record of l that is not older
   (not newer) than any record of l that has a value in that column; null
   when no record of l has one. *)
Definition do_mais_recente {A} (col : Venda → option A) (l : DataFrame)
    (x : option A) : Prop :=
  match x with
  | Some s => ∃ v, v ∈ l ∧ col v = Some s ∧
                   ∀ w, w ∈ l → is_Some (col w) →
                        data_emissao w ≤ data_emissao v
  | None => ∀ w, w ∈ l → col w = None
  end.

Definition do_mais_antigo {A} (col : Venda → option A) (l : DataFrame)
    (x : option A) : Prop :=
  match x with
  | Some s => ∃ v, v ∈ l ∧ col v = Some s ∧
                   ∀ w, w ∈ l → is_Some (col w) →
                        data_emissao v ≤ data_emissao w
  | None => ∀ w, w ∈ l → col w = None
  end.

(* --------------------------------------------------------------------- *)
(* Sample record sets                                                    *)
(* --------------------------------------------------------------------- *)

Definition venda (c p d q : Z) (desc : option string) : Venda :=
  {| cliente := c; mercadoria := p; data_emissao := d;
     valor_liq := Inteiro 0;
     quant := Inteiro q; vendedor := None; cidade := None; raz_social := None;
     atividade := None; rede := None; descricao_produto := desc |}.

(* The scenario of the specification: C1 buys PA and PB, C2 buys PA;
   PA = 10, PB = 20, dates as day numbers. *)
Definition df_cenario : DataFrame :=
  [venda 1 10 1 2 (Some "PA"); venda 1 20 5 1 (Some "PB");
   venda 2 10 2 3 (Some "PA")].

(* Two customers whose last purchase of product 10 falls on the same day. *)
Definition df_empate : DataFrame :=
  [venda 1 10 5 2 (Some "PA"); venda 2 10 5 3 (Some "PA")].

(* One customer, two purchases of product 10 whose quantities add up to
   2^63, one more than the largest int64. *)
Definition df_transborda : DataFrame :=
  [venda 1 10 5 (2 ^ 62) (Some "PA"); venda 1 10 6 (2 ^ 62) (Some "PA")].

(* The same customer on a float64 quantity column, one quantity NULL. *)
Definition venda_fracionada (c p d : Z) (q : float) : Venda :=
  {| cliente := c; mercadoria := p; data_emissao := d;
     valor_liq := Real 0%float;
     quant := Real q; vendedor := None; cidade := None; raz_social := None;
     atividade := None; rede := None; descricao_produto := None |}.

Definition df_fracionado : DataFrame :=
  [venda_fracionada 1 10 5 0.5%float; venda_fracionada 1 10 6 nan;
   venda_fracionada 1 10 7 0.25%float].

(* A customer of both products whose product 10 has no description (the
   left join with mercadorias found no row). *)
Definition df_sem_descricao : DataFrame :=
  [venda 1 10 5 2 None; venda 1 20 6 3 (Some "PB")].

(* Records for the filter: two cities, one record without city. *)
Definition venda_em (c : Z) (cid : option string) : Venda :=
  {| cliente := c; mercadoria := 10; data_emissao := 1;
     valor_liq := Inteiro 0;
     quant := Inteiro 1; vendedor := Some "7"; cidade := cid; raz_social := None;
     atividade := None; rede := None; descricao_produto := None |}.

Definition df_cidades : DataFrame :=
  [venda_em 1 (Some "Belo Horizonte"); venda_em 2 (Some "Contagem");
   venda_em 3 None; venda_em 4 (Some "Belo Horizonte")].

(* Records as load_data returns them, newest first: customer 1 buys
   product 10 twice, from two salespersons and under two legal names;
   customer 2 buys it once, with no salesperson on record. *)
Definition venda_de (c p d : Z) (vend raz : option string) : Venda :=
  {| cliente := c; mercadoria := p; data_emissao := d;
     valor_liq := Inteiro 0;
     quant := Inteiro 1; vendedor := vend; cidade := None; raz_social := raz;
     atividade := None; rede := None; descricao_produto := None |}.

Definition df_carregado : DataFrame :=
  [venda_de 1 10 9 (Some "12") (Some "Loja Nova");
   venda_de 2 10 7 None None;
   venda_de 1 10 3 (Some "34") (Some "Loja Velha")].

(* ===================================================================== *)
(* Lemmas on the primitives                                              *)
(* ===================================================================== *)

Section unique_facts.
Context {A : Type} `{EqDecision A}.
Implicit Types l : list A.

Lemma elem_of_unique l x : x ∈ unique l ↔ x ∈ l.
Proof.
  induction l as [|y l IH]; simpl; [done|].
  rewrite !elem_of_cons, list_elem_of_filter, IH.
  destruct (decide (x = y)); naive_solver.
Qed.

Lemma NoDup_unique l : NoDup (unique l).
Proof.
  induction l as [|y l IH]; simpl; [constructor|].
  constructor.
  - rewrite list_elem_of_filter. naive_solver.
  - by apply NoDup_filter.
Qed.

End unique_facts.

Lemma elem_of_clientes_de df p c : c ∈ clientes_de df p ↔ comprou df p c.
Proof.
  unfold clientes_de, com_mercadoria, comprou.
  rewrite elem_of_list_to_set, elem_of_unique, list_elem_of_fmap.
  setoid_rewrite list_elem_of_filter. naive_solver.
Qed.

(* ===================================================================== *)
(* take and the descending sort                                          *)
(* ===================================================================== *)

Lemma take_idx_nil {A} (l : list A) : take_idx l [] = [].
Proof. done. Qed.

Lemma take_idx_cons {A} (l : list A) i indexer :
  take_idx l (i :: indexer) =
  match l !! i with
  | Some x => x :: take_idx l indexer
  | None => take_idx l indexer
  end.
Proof. done. Qed.

Lemma take_idx_app {A} (l : list A) i1 i2 :
  take_idx l (i1 ++ i2) = take_idx l i1 ++ take_idx l i2.
Proof. apply omap_app. Qed.

Lemma take_idx_seq_from {A} (k l : list A) :
  take_idx (k ++ l) (seq (length k) (length l)) = l.
Proof.
  revert k. induction l as [|x l IH]; intros k; [done|].
  cbn [length seq]. rewrite take_idx_cons.
  rewrite lookup_app_r, Nat.sub_diag by lia. cbn [lookup list_lookup].
  f_equal. specialize (IH (k ++ [x])).
  rewrite length_app, <- (assoc_L (++)) in IH. cbn [length app] in IH.
  by rewrite Nat.add_1_r in IH.
Qed.

Lemma take_idx_seq {A} (l : list A) : take_idx l (seq 0 (length l)) = l.
Proof. apply (take_idx_seq_from []). Qed.

Lemma take_idx_seq_all {A} (l : list A) n :
  n = length l → take_idx l (seq 0 n) = l.
Proof. intros ->. apply take_idx_seq. Qed.

Lemma take_idx_Permutation {A} (l : list A) i1 i2 :
  i1 ≡ₚ i2 → take_idx l i1 ≡ₚ take_idx l i2.
Proof. intros Hi. unfold take_idx. by rewrite Hi. Qed.

Lemma take_idx_reverse {A} (l : list A) indexer :
  take_idx l (reverse indexer) = reverse (take_idx l indexer).
Proof.
  induction indexer as [|i indexer IH]; [done|].
  rewrite reverse_cons, take_idx_app, IH, !take_idx_cons, take_idx_nil.
  destruct (l !! i).
  - by rewrite reverse_cons.
  - by rewrite app_nil_r.
Qed.

(* Reading l through the reversed positions is reading reverse l. *)
Lemma take_idx_reverse_seq {A} (l : list A) indexer :
  take_idx l (take_idx (reverse (seq 0 (length l))) indexer) =
  take_idx (reverse l) indexer.
Proof.
  induction indexer as [|i indexer IH]; [done|].
  rewrite !take_idx_cons.
  destruct (decide (i < length l)%nat) as [Hi|Hi].
  - rewrite !reverse_lookup by (rewrite ?length_seq; lia).
    rewrite length_seq, lookup_seq_lt by lia.
    rewrite Nat.add_0_l, take_idx_cons, IH.
    by destruct (l !! (length l - S i)%nat).
  - rewrite !(lookup_ge_None_2 (reverse _))
      by (rewrite length_reverse, ?length_seq; lia).
    done.
Qed.


Lemma take_idx_fmap {A B} (f : A → B) (l : list A) indexer :
  take_idx (f <$> l) indexer = f <$> take_idx l indexer.
Proof.
  induction indexer as [|i indexer IH]; [done|].
  rewrite !take_idx_cons, list_lookup_fmap, IH.
  by destruct (l !! i).
Qed.

Lemma Sorted_fmap_inv {A B} (f : A → B) (R : relation B) (l : list A) :
  Sorted R (f <$> l) → Sorted (λ x y, R (f x) (f y)) l.
Proof.
  induction l as [|x l IH]; [constructor|].
  rewrite fmap_cons. inversion_clear 1 as [|?? Hs Hh].
  constructor; [by apply IH|].
  destruct l; [constructor|].
  inversion_clear Hh. by constructor.
Qed.

Lemma nargsort_desc_Permutation (S : Argsort) items :
  nargsort_desc S items ≡ₚ seq 0 (length items).
Proof.
  unfold nargsort_desc. rewrite reverse_Permutation.
  rewrite (take_idx_Permutation _ _ _ (argsort_perm S (reverse items))).
  rewrite take_idx_seq_all by (by rewrite !length_reverse, length_seq).
  apply reverse_Permutation.
Qed.

Lemma nargsort_desc_Sorted (S : Argsort) items :
  Sorted (flip Z.le) (take_idx items (nargsort_desc S items)).
Proof.
  unfold nargsort_desc.
  rewrite take_idx_reverse, take_idx_reverse_seq.
  apply Sorted_reverse, argsort_sorted.
Qed.

Section sort_values_facts.
Context {A : Type} (S : Argsort) (by_ : A → Z).
Implicit Types df : list A.

Lemma sort_values_desc_Permutation df : sort_values_desc S by_ df ≡ₚ df.
Proof.
  unfold sort_values_desc.
  rewrite (take_idx_Permutation _ _ _ (nargsort_desc_Permutation S _)).
  by rewrite take_idx_seq_all by (by rewrite length_fmap).
Qed.

Lemma sort_values_desc_Sorted df :
  Sorted (λ x y, by_ y ≤ by_ x) (sort_values_desc S by_ df).
Proof.
  apply (Sorted_fmap_inv by_ (flip Z.le)).
  unfold sort_values_desc. rewrite <- take_idx_fmap.
  apply nargsort_desc_Sorted.
Qed.

Lemma elem_of_sort_values_desc df x :
  x ∈ sort_values_desc S by_ df ↔ x ∈ df.
Proof. by rewrite sort_values_desc_Permutation. Qed.

End sort_values_facts.

(* ===================================================================== *)
(* groupby and the merge                                                 *)
(* ===================================================================== *)

Lemma filter_nenhum {A} (P : A → Prop) `{∀ x, Decision (P x)} (l : list A) :
  (∀ x, x ∈ l → ¬ P x) → filter P l = [].
Proof.
  induction l as [|x l IH]; intros HP; [done|].
  rewrite filter_cons_False by (apply HP; left).
  apply IH. intros y Hy. apply HP. by right.
Qed.

Lemma take_idx_vazio {A} indexer : take_idx (@nil A) indexer = [].
Proof. induction indexer as [|i indexer IH]; [done|]. by rewrite take_idx_cons. Qed.

Lemma elem_of_chaves df k : k ∈ chaves df ↔ ∃ r, r ∈ df ∧ cliente r = k.
Proof.
  unfold chaves.
  rewrite merge_sort_Permutation, elem_of_unique, list_elem_of_fmap.
  naive_solver.
Qed.

Lemma NoDup_chaves df : NoDup (chaves df).
Proof. unfold chaves. rewrite merge_sort_Permutation. apply NoDup_unique. Qed.

(* The groups come out by ascending customer. *)
Lemma Sorted_chaves df : StronglySorted Z.le (chaves df).
Proof. apply (StronglySorted_merge_sort Z.le). Qed.

Lemma groupby_cliente_chaves df : (groupby_cliente df).*1 = chaves df.
Proof.
  unfold groupby_cliente. rewrite <- list_fmap_compose.
  apply list_fmap_id.
Qed.

Lemma grupo_nao_vazio df k : k ∈ chaves df → grupo df k ≠ [].
Proof.
  rewrite elem_of_chaves. intros (r & Hr & Hk) Hg. unfold grupo in Hg.
  by apply (filter_nil_not_elem_of (λ v, cliente v = k) df r) in Hg.
Qed.

(* Every group that groupby emits has a row, so agg_max is never applied
   to the empty list; on a list with a row it is the maximum. *)
Lemma grupos_nao_vazios df : Forall (λ g, g.2 ≠ []) (groupby_cliente df).
Proof.
  unfold groupby_cliente. rewrite Forall_fmap. apply Forall_forall.
  intros k Hk. simpl. by apply grupo_nao_vazio.
Qed.

Lemma foldl_max_spec (l : list Z) x :
  (foldl Z.max x l = x ∨ foldl Z.max x l ∈ l) ∧
  x ≤ foldl Z.max x l ∧ Forall (λ y, y ≤ foldl Z.max x l) l.
Proof.
  revert x. induction l as [|y l IH]; intros x; simpl.
  - split_and!; [by left|lia|constructor].
  - destruct (IH (Z.max x y)) as (Hin & Hle & Hall). split_and!.
    + destruct Hin as [->|Hin]; [|right; by right].
      destruct (Z.max_spec x y) as [[_ ->]|[_ ->]]; [right; by left|by left].
    + lia.
    + constructor; [lia|done].
Qed.

Lemma agg_max_spec (l : list Z) :
  l ≠ [] → agg_max l ∈ l ∧ Forall (λ y, y ≤ agg_max l) l.
Proof.
  destruct l as [|x l]; [done|]. intros _. simpl.
  destruct (foldl_max_spec l x) as (Hin & Hle & Hall). split.
  - destruct Hin as [->|Hin]; [by left|by right].
  - by constructor.
Qed.

Lemma chaves_do_produto df clientes produto k :
  k ∈ chaves (do_produto clientes produto df) ↔
  k ∈ clientes ∧ comprou df produto k.
Proof.
  rewrite elem_of_chaves. unfold do_produto, comprou.
  setoid_rewrite list_elem_of_filter. unfold mascara_produto.
  naive_solver.
Qed.

Lemma chaves_dos_clientes df clientes k :
  k ∈ chaves (dos_clientes clientes df) ↔
  k ∈ clientes ∧ ∃ r, r ∈ df ∧ cliente r = k.
Proof.
  rewrite elem_of_chaves. unfold dos_clientes.
  setoid_rewrite list_elem_of_filter. unfold mascara_clientes.
  naive_solver.
Qed.

Lemma grupo_do_produto df clientes produto k :
  k ∈ clientes →
  grupo (do_produto clientes produto df) k =
  filter (λ v, cliente v = k ∧ mercadoria v = produto) df.
Proof.
  intros Hk. unfold grupo, do_produto. rewrite list_filter_filter.
  apply list_filter_iff. unfold mascara_produto. naive_solver.
Qed.

Lemma grupo_dos_clientes df clientes k :
  k ∈ clientes →
  grupo (dos_clientes clientes df) k = filter (λ v, cliente v = k) df.
Proof.
  intros Hk. unfold grupo, dos_clientes. rewrite list_filter_filter.
  apply list_filter_iff. unfold mascara_clientes. naive_solver.
Qed.

(* A list of distinct keys that enumerates a set has its size. *)
Lemma length_enumera (ks : list Z) (X : gset Z) :
  NoDup ks → (∀ k, k ∈ ks ↔ k ∈ X) → length ks = size X.
Proof.
  intros Hnd Hks. rewrite <- (size_list_to_set (C:=gset Z)) by done.
  f_equal. apply set_eq. intros k. by rewrite elem_of_list_to_set.
Qed.

Lemma uma_por_cliente_intro {A} (chave : A → Z) (X : gset Z)
    (linhas : list A) (ks : list Z) :
  chave <$> linhas ≡ₚ ks → NoDup ks → (∀ k, k ∈ ks ↔ k ∈ X) →
  uma_por_cliente chave X linhas.
Proof.
  intros Hp Hnd Hks.
  assert (length linhas = size X) as Hlen.
  { rewrite <- (length_fmap chave), Hp. by apply length_enumera. }
  split_and!; [done|by rewrite Hp|by intros c; rewrite Hp| ].
  split.
  - intros ->. simpl in Hlen. symmetry in Hlen.
    by apply size_empty_iff, leibniz_equiv in Hlen.
  - intros ->. rewrite size_empty in Hlen. by apply nil_length_inv.
Qed.

Section merge_facts.
Context {L : Type} (chave : L → Z) (g : Z → option string).

Lemma filter_chave_ausente (ks : list Z) k :
  k ∉ ks →
  filter (λ kv : Z * option string, kv.1 = k) ((λ k, (k, g k)) <$> ks) = [].
Proof.
  intros Hk. apply filter_nenhum. intros kv Hkv Heq.
  apply list_elem_of_fmap in Hkv as (k' & -> & Hk'). simpl in Heq.
  by subst.
Qed.

Lemma filter_chave_unica (ks : list Z) k :
  NoDup ks → k ∈ ks →
  filter (λ kv : Z * option string, kv.1 = k) ((λ k, (k, g k)) <$> ks) =
  [(k, g k)].
Proof.
  induction 1 as [|x ks Hx Hnd IH]; [by intros ?%elem_of_nil|].
  rewrite fmap_cons. intros [->|Hk]%elem_of_cons.
  - rewrite filter_cons_True by done.
    by rewrite filter_chave_ausente.
  - rewrite filter_cons_False by (simpl; intros ->; done).
    by apply IH.
Qed.

(* Against a right table with one row per key, the left merge adds to
   each row of left the value found under its key. *)
Lemma merge_left_unico (left : list L) (ks : list Z) :
  NoDup ks → (∀ l, l ∈ left → chave l ∈ ks) →
  merge_left chave left ((λ k, (k, g k)) <$> ks) =
  (λ l, (l, g (chave l))) <$> left.
Proof.
  intros Hnd. unfold merge_left.
  induction left as [|l left IH]; intros Hks; [done|].
  rewrite bind_cons, fmap_cons, IH
    by (intros ??; apply Hks; by right).
  rewrite filter_chave_unica by (done || apply Hks; left). done.
Qed.
End merge_facts.

Lemma str_app_assoc (a b c : string) : (a +:+ b) +:+ c = a +:+ (b +:+ c).
Proof.
  induction a as [|x a IH]; [done|].
  change (String x ((a +:+ b) +:+ c) = String x (a +:+ (b +:+ c))).
  by rewrite IH.
Qed.

(* ===================================================================== *)
(* The tables before and after the sort                                  *)
(* ===================================================================== *)

Section tabelas.
Context (S : Argsort) (df : DataFrame).
Implicit Types (P : gset Z) (p : Z).

Lemma do_produto_vazio p : do_produto ∅ p df = [].
Proof.
  apply filter_nenhum. intros v _ [Hv _]. set_solver.
Qed.

Lemma dos_clientes_vazio : dos_clientes ∅ df = [].
Proof.
  apply filter_nenhum. intros v _ Hv. unfold mascara_clientes in Hv.
  set_solver.
Qed.

Lemma detalhe_agrupado_chaves P p :
  detalhe_agrupado df P p =
  (λ k, agg_detalhe (k, grupo (do_produto P p df) k)) <$>
    chaves (do_produto P p df).
Proof.
  unfold detalhe_agrupado, groupby_cliente.
  by rewrite <- list_fmap_compose.
Qed.

Lemma detalhe_agrupado_Cliente P p :
  Detalhe.Cliente <$> detalhe_agrupado df P p = chaves (do_produto P p df).
Proof.
  rewrite detalhe_agrupado_chaves, <- list_fmap_compose.
  apply list_fmap_id.
Qed.

Lemma detalhe_produto_vazio p : detalhe_produto S df ∅ p = [].
Proof.
  unfold detalhe_produto, detalhe_agrupado.
  rewrite do_produto_vazio. apply take_idx_vazio.
Qed.

Lemma detalhe_produto_uma P p :
  (∀ c, c ∈ P → comprou df p c) →
  uma_por_cliente Detalhe.Cliente P (detalhe_produto S df P p).
Proof.
  intros HP.
  apply (uma_por_cliente_intro _ _ _ (chaves (do_produto P p df))).
  - unfold detalhe_produto.
    by rewrite sort_values_desc_Permutation, detalhe_agrupado_Cliente.
  - apply NoDup_chaves.
  - intros k. rewrite chaves_do_produto. naive_solver.
Qed.

(* Each row of a single-product table is the aggregate of the customer's
   transactions of that product. *)
Lemma detalhe_produto_linha P p linha :
  linha ∈ detalhe_produto S df P p →
  Detalhe.Cliente linha ∈ P ∧
  linha = agg_detalhe (Detalhe.Cliente linha,
            filter (λ v, cliente v = Detalhe.Cliente linha ∧
                         mercadoria v = p) df).
Proof.
  unfold detalhe_produto.
  rewrite elem_of_sort_values_desc, detalhe_agrupado_chaves.
  intros (k & -> & Hk)%list_elem_of_fmap.
  apply chaves_do_produto in Hk as [Hk _]. simpl.
  by rewrite grupo_do_produto.
Qed.

Lemma df_prod_chaves P p :
  df_prod df P p =
  (λ k, (k, agg_first (descricao_produto <$> grupo (do_produto P p df) k)))
    <$> chaves (do_produto P p df).
Proof. unfold df_prod, groupby_cliente. by rewrite <- list_fmap_compose. Qed.

(* The both-table before the sort: one row per key of the restriction to
   the customers, each with the two descriptions found under its key. *)
Lemma ambos_agrupado_chaves P pa pb :
  (∀ c, c ∈ P → comprou df pa c ∧ comprou df pb c) →
  ambos_agrupado df P pa pb =
  (λ k, linha_ambos
          (agg_ambos (k, grupo (dos_clientes P df) k),
           agg_first (descricao_produto <$> grupo (do_produto P pa df) k),
           agg_first (descricao_produto <$> grupo (do_produto P pb df) k)))
    <$> chaves (dos_clientes P df).
Proof.
  intros HP. unfold ambos_agrupado. cbv zeta.
  rewrite !df_prod_chaves. unfold groupby_cliente.
  rewrite <- (list_fmap_compose _ agg_ambos).
  rewrite (merge_left_unico g_cliente).
  2: apply NoDup_chaves.
  2: { intros l (k & -> & Hk)%list_elem_of_fmap. simpl.
       apply chaves_dos_clientes in Hk as [Hk _].
       apply chaves_do_produto. split; [done|]. by apply HP. }
  rewrite (merge_left_unico (λ x : AggAmbos * option string, g_cliente x.1)).
  2: apply NoDup_chaves.
  2: { intros l (l' & -> & (k & -> & Hk)%list_elem_of_fmap)%list_elem_of_fmap.
       simpl. apply chaves_dos_clientes in Hk as [Hk _].
       apply chaves_do_produto. split; [done|]. by apply HP. }
  by rewrite <- !list_fmap_compose.
Qed.

Lemma ambos_agrupado_Cliente P pa pb :
  (∀ c, c ∈ P → comprou df pa c ∧ comprou df pb c) →
  Ambos.Cliente <$> ambos_agrupado df P pa pb = chaves (dos_clientes P df).
Proof.
  intros HP. rewrite ambos_agrupado_chaves, <- list_fmap_compose by done.
  apply list_fmap_id.
Qed.

Lemma ambos_agrupado_vazio pa pb : ambos_agrupado df ∅ pa pb = [].
Proof.
  unfold ambos_agrupado, groupby_cliente. cbv zeta.
  by rewrite dos_clientes_vazio.
Qed.

Lemma ambos_ordenado_vazio pa pb : ambos_ordenado S df ∅ pa pb = [].
Proof.
  unfold ambos_ordenado. rewrite ambos_agrupado_vazio. apply take_idx_vazio.
Qed.

Lemma ambos_ordenado_uma P pa pb :
  (∀ c, c ∈ P → comprou df pa c ∧ comprou df pb c) →
  uma_por_cliente Ambos.Cliente P (ambos_ordenado S df P pa pb).
Proof.
  intros HP.
  apply (uma_por_cliente_intro _ _ _ (chaves (dos_clientes P df))).
  - unfold ambos_ordenado.
    by rewrite sort_values_desc_Permutation, ambos_agrupado_Cliente.
  - apply NoDup_chaves.
  - intros k. rewrite chaves_dos_clientes. split; [naive_solver|].
    intros Hk. split; [done|].
    destruct (HP k Hk) as [(r & ? & ? & ?) _]. eauto.
Qed.

(* Each row of the both-table: the aggregate of all the customer's
   transactions, and the two descriptions joined by the null-propagating
   addition. *)
Lemma ambos_ordenado_linha P pa pb linha :
  (∀ c, c ∈ P → comprou df pa c ∧ comprou df pb c) →
  linha ∈ ambos_ordenado S df P pa pb →
  let c := Ambos.Cliente linha in
  c ∈ P ∧
  linha = linha_ambos
    (agg_ambos (c, filter (λ v, cliente v = c) df),
     agg_first (descricao_produto <$>
                  filter (λ v, cliente v = c ∧ mercadoria v = pa) df),
     agg_first (descricao_produto <$>
                  filter (λ v, cliente v = c ∧ mercadoria v = pb) df)).
Proof.
  intros HP. unfold ambos_ordenado.
  rewrite elem_of_sort_values_desc, ambos_agrupado_chaves by done.
  intros (k & -> & Hk)%list_elem_of_fmap.
  apply chaves_dos_clientes in Hk as [Hk _]. simpl.
  by rewrite grupo_dos_clientes, !grupo_do_produto.
Qed.

(* What main shows is what the table expressions build, also where the
   partition is empty and main shows the notice instead. *)
Lemma linhas_de_df_apenas_a r pa :
  linhas_de (df_apenas_a S df r pa) = detalhe_produto S df (apenas_a r) pa.
Proof.
  unfold df_apenas_a. case_decide as Hsz; [done|]. simpl.
  assert (apenas_a r = ∅) as ->
    by (apply leibniz_equiv, size_empty_iff; lia).
  by rewrite detalhe_produto_vazio.
Qed.

Lemma linhas_de_df_apenas_b r pb :
  linhas_de (df_apenas_b S df r pb) = detalhe_produto S df (apenas_b r) pb.
Proof.
  unfold df_apenas_b. case_decide as Hsz; [done|]. simpl.
  assert (apenas_b r = ∅) as ->
    by (apply leibniz_equiv, size_empty_iff; lia).
  by rewrite detalhe_produto_vazio.
Qed.

Lemma linhas_de_df_ambos r pa pb :
  linhas_de (df_ambos S df r pa pb) =
  ambos_ordenado S df (ambos r) pa pb.
Proof.
  unfold df_ambos. case_decide as Hsz; [done|]. simpl.
  assert (ambos r = ∅) as ->
    by (apply leibniz_equiv, size_empty_iff; lia).
  by rewrite ambos_ordenado_vazio.
Qed.
End tabelas.

(* ===================================================================== *)
(* The analyzer                                                          *)
(* ===================================================================== *)

Section analisador.
Variables (df : DataFrame) (produto_a produto_b : Z).
Let r := analisar_venda_cruzada df produto_a produto_b.

Lemma elem_of_apenas_a c :
  c ∈ apenas_a r ↔ comprou df produto_a c ∧ ¬ comprou df produto_b c.
Proof. simpl. by rewrite elem_of_difference, !elem_of_clientes_de. Qed.

Lemma elem_of_apenas_b c :
  c ∈ apenas_b r ↔ comprou df produto_b c ∧ ¬ comprou df produto_a c.
Proof. simpl. by rewrite elem_of_difference, !elem_of_clientes_de. Qed.

Lemma elem_of_ambos c :
  c ∈ ambos r ↔ comprou df produto_a c ∧ comprou df produto_b c.
Proof. simpl. by rewrite elem_of_intersection, !elem_of_clientes_de. Qed.

Lemma apenas_a_ambos_union : apenas_a r ∪ ambos r = clientes_a r.
Proof.
  simpl. apply set_eq. intros c.
  destruct (decide (c ∈ clientes_de df produto_b)); set_solver.
Qed.

Lemma apenas_b_ambos_union : apenas_b r ∪ ambos r = clientes_b r.
Proof.
  simpl. apply set_eq. intros c.
  destruct (decide (c ∈ clientes_de df produto_a)); set_solver.
Qed.
End analisador.

(** C1: the three sets returned by the analyzer are pairwise disjoint, their
    union is A ∪ B, where A (B) holds exactly the customers of the records
    with product_a (product_b), and a customer in an output set bought one
    of the two products. *)
Theorem particao_exata (df : DataFrame) (produto_a produto_b : Z) :
  let r := analisar_venda_cruzada df produto_a produto_b in
  (apenas_a r ## apenas_b r ∧ apenas_a r ## ambos r ∧ apenas_b r ## ambos r) ∧
  apenas_a r ∪ apenas_b r ∪ ambos r = clientes_a r ∪ clientes_b r ∧
  (∀ c, c ∈ clientes_a r ↔ comprou df produto_a c) ∧
  (∀ c, c ∈ clientes_b r ↔ comprou df produto_b c) ∧
  (∀ c, c ∈ apenas_a r ∨ c ∈ apenas_b r ∨ c ∈ ambos r ↔
        comprou df produto_a c ∨ comprou df produto_b c).
Proof.
  intros r. split_and!.
  - subst r; simpl; set_solver.
  - subst r; simpl; set_solver.
  - subst r; simpl; set_solver.
  - subst r; simpl. apply set_eq. intros c.
    destruct (decide (c ∈ clientes_de df produto_a)),
             (decide (c ∈ clientes_de df produto_b)); set_solver.
  - intros c. apply elem_of_clientes_de.
  - intros c. apply elem_of_clientes_de.
  - intros c. subst r.
    rewrite elem_of_apenas_a, elem_of_apenas_b, elem_of_ambos.
    destruct (decide (c ∈ clientes_de df produto_a)) as [Ha|Ha],
             (decide (c ∈ clientes_de df produto_b)) as [Hb|Hb];
      rewrite !elem_of_clientes_de in *; tauto.
Qed.

(** C2: the counts of the analyzer satisfy
    |only_a| + |both| = total_a and |only_b| + |both| = total_b, the counts
    being the sizes of the returned sets. *)
Theorem contagens_somam (df : DataFrame) (produto_a produto_b : Z) :
  let r := analisar_venda_cruzada df produto_a produto_b in
  (count_apenas_a r + count_ambos r = total_a r)%nat ∧
  (count_apenas_b r + count_ambos r = total_b r)%nat ∧
  count_apenas_a r = size (apenas_a r) ∧
  count_apenas_b r = size (apenas_b r) ∧
  count_ambos r = size (ambos r) ∧
  total_a r = size (clientes_a r) ∧
  total_b r = size (clientes_b r).
Proof.
  intros r. split_and!; try reflexivity.
  - subst r; simpl. rewrite <- size_union by set_solver.
    f_equal. apply (apenas_a_ambos_union df produto_a produto_b).
  - subst r; simpl. rewrite <- size_union by set_solver.
    f_equal. apply (apenas_b_ambos_union df produto_a produto_b).
Qed.

(* The rate of any result record: a value, never an error. *)
Lemma taxa_conversao_valor (resultado : Resultado) :
  ∃ q, taxa_conversao resultado = Some q ∧
       match total_a resultado with
       | O => q = 0%Q
       | S _ => (q == inject_Z (Z.of_nat (count_ambos resultado)) /
                      inject_Z (Z.of_nat (total_a resultado)) * 100)%Q
       end.
Proof.
  unfold taxa_conversao, truediv.
  destruct (total_a resultado) as [|n] eqn:Hn.
  - eexists; split; [|reflexivity]. by rewrite decide_False by lia.
  - rewrite decide_True by lia. simpl.
    eexists; split; [reflexivity|].
    rewrite Qmake_Qdiv.
    replace (Z.pos (Pos.of_nat (S n))) with (Z.of_nat (S n)); [reflexivity|].
    rewrite <- Pos.of_nat_succ. lia.
Qed.

(** C3: the conversion rate is always computed (no division by zero,
    whatever the counts of the result record); for the result of the
    analyzer it is exactly 0 when |A| = 0 and |both| / |A| * 100 otherwise;
    on the empty record set it is 0. *)
Theorem taxa_conversao_total (df : DataFrame) (produto_a produto_b : Z) :
  let r := analisar_venda_cruzada df produto_a produto_b in
  (∀ resultado, is_Some (taxa_conversao resultado)) ∧
  (∃ q, taxa_conversao r = Some q ∧
        match size (clientes_a r) with
        | O => q = 0%Q
        | S _ => (q == inject_Z (Z.of_nat (size (ambos r))) /
                       inject_Z (Z.of_nat (size (clientes_a r))) * 100)%Q
        end) ∧
  taxa_conversao (analisar_venda_cruzada [] produto_a produto_b) = Some 0%Q.
Proof.
  intros r. split_and!.
  - intros resultado.
    destruct (taxa_conversao_valor resultado) as (q & -> & _). by eexists.
  - apply (taxa_conversao_valor r).
  - reflexivity.
Qed.

(** C9: the analyzer is a total function without precondition: called with
    the same product twice it returns only_a = ∅, only_b = ∅ and both = A,
    with the counts 0, 0 and |A|; the check for equal products is made by
    main, which then warns and does not call it. *)
Theorem produtos_iguais (df : DataFrame) (p : Z) :
  let r := analisar_venda_cruzada df p p in
  apenas_a r = ∅ ∧ apenas_b r = ∅ ∧
  ambos r = clientes_a r ∧ clientes_a r = clientes_b r ∧
  (∀ c, c ∈ ambos r ↔ comprou df p c) ∧
  count_apenas_a r = O ∧ count_apenas_b r = O ∧
  count_ambos r = total_a r ∧ total_b r = total_a r ∧
  (∃ aviso, main_analise df p p = ProdutosIguais aviso).
Proof.
  intros r. subst r. simpl.
  assert (clientes_de df p ∖ clientes_de df p = ∅) as -> by set_solver.
  assert (clientes_de df p ∩ clientes_de df p = clientes_de df p) as ->
    by set_solver.
  split_and!; try done.
  - intros c. apply elem_of_clientes_de.
  - unfold main_analise. rewrite decide_True by done. by eexists.
Qed.

(* ===================================================================== *)
(* The filter step                                                       *)
(* ===================================================================== *)

Lemma isin_aceita valor valores : isin valor valores ↔ aceita (Aceitos valores) valor.
Proof.
  destruct valor as [s|]; simpl.
  - rewrite bool_decide_spec. naive_solver.
  - naive_solver.
Qed.

Lemma filter_sem_restricao {A} (P : A → Prop) `{∀ x, Decision (P x)} (l : list A) :
  (∀ x, P x) → filter P l = l.
Proof.
  intros HP. induction l as [|x l IH]; [done|].
  by rewrite filter_cons_True, IH.
Qed.

(* One step of the filter: the selection read as a restriction. *)
Lemma filtrar_restricao coluna sentinela selecao df :
  filtrar coluna sentinela selecao df =
  filter (λ r, aceita (restricao_de sentinela selecao) (coluna r)) df.
Proof.
  unfold filtrar, restricao_de.
  destruct (decide (sentinela ∈ selecao ∨ selecao = [])) as [Hs|Hs].
  - rewrite decide_False.
    + symmetry. by apply filter_sem_restricao.
    + intros [Hn Hl]. destruct Hs as [?| ->]; [done|simpl in Hl; lia].
  - rewrite decide_True.
    + apply list_filter_iff. intros r. apply isin_aceita.
    + split; [tauto|]. destruct selecao; [tauto|simpl; lia].
Qed.

Lemma filtrar_sem_efeito coluna sentinela selecao df :
  sentinela ∈ selecao ∨ selecao = [] →
  filtrar coluna sentinela selecao df = df.
Proof.
  intros Hs. unfold filtrar. rewrite decide_False; [done|].
  intros [Hn Hl]. destruct Hs as [?| ->]; [done|simpl in Hl; lia].
Qed.

(** C8: the filter step keeps exactly the records that pass every field
    with a real restriction (a field whose selection holds the sentinel or
    is empty imposes nothing), the four restrictions taken together, and
    the kept records are in the order of the input. *)
Theorem filtros_conjuntivos (df : DataFrame)
    (cidade_selecionada vendedor_selecionado
     atividade_selecionada rede_selecionada : list string) :
  let f := filtros_de cidade_selecionada vendedor_selecionado
             atividade_selecionada rede_selecionada in
  let df_filtrado := aplicar_filtros df cidade_selecionada
             vendedor_selecionado atividade_selecionada rede_selecionada in
  df_filtrado = filter (passa f) df ∧
  (∀ r, r ∈ df_filtrado ↔ r ∈ df ∧ passa f r) ∧
  df_filtrado `sublist_of` df.
Proof.
  intros f df_filtrado.
  assert (df_filtrado = filter (passa f) df) as ->.
  { subst f df_filtrado. unfold aplicar_filtros. cbv zeta.
    rewrite !filtrar_restricao, !list_filter_filter.
    apply list_filter_iff. intros r. unfold passa, filtros_de. simpl. tauto. }
  split_and!; [done| |apply sublist_filter].
  intros r. rewrite list_elem_of_filter. tauto.
Qed.

(* With every field at its sentinel, or empty, the record set passes
   through all four steps unchanged. *)
Lemma aplicar_filtros_sem_restricao (df : DataFrame)
    (cidade_selecionada vendedor_selecionado
     atividade_selecionada rede_selecionada : list string) :
  ("Todas" ∈ cidade_selecionada ∨ cidade_selecionada = []) →
  ("Todos" ∈ vendedor_selecionado ∨ vendedor_selecionado = []) →
  ("Todas" ∈ atividade_selecionada ∨ atividade_selecionada = []) →
  ("Todas" ∈ rede_selecionada ∨ rede_selecionada = []) →
  aplicar_filtros df cidade_selecionada vendedor_selecionado
    atividade_selecionada rede_selecionada = df.
Proof.
  intros Hc Hv Ha Hr. unfold aplicar_filtros. cbv zeta.
  by rewrite !filtrar_sem_efeito.
Qed.

(** C10: the filter of a field whose selection holds the sentinel (also
    next to other values) or is empty applies no restriction: the record
    set passes through it unchanged, whatever the field; and the filter
    step of main is made of four such filters, on cidade with "Todas", on
    vendedor with "Todos", on atividade with "Todas" and on rede with
    "Todas". *)
Theorem sentinela_sem_restricao (coluna : Venda → option string)
    (sentinela : string) (selecao : list string) (df : DataFrame) :
  sentinela ∈ selecao ∨ selecao = [] →
  filtrar coluna sentinela selecao df = df ∧
  (∀ cidade_selecionada vendedor_selecionado
     atividade_selecionada rede_selecionada,
     aplicar_filtros df cidade_selecionada vendedor_selecionado
       atividade_selecionada rede_selecionada =
     filtrar rede "Todas" rede_selecionada
       (filtrar atividade "Todas" atividade_selecionada
          (filtrar vendedor "Todos" vendedor_selecionado
             (filtrar cidade "Todas" cidade_selecionada df)))).
Proof.
  intros Hs. split; [|done].
  unfold filtrar. rewrite decide_False; [done|].
  intros [Hn Hl]. destruct Hs as [?| ->]; [done|simpl in Hl; lia].
Qed.

Lemma sentinela_sem_restricao_witness :
  ("Todas" ∈ ["Todas"; "Contagem"] ∨ ["Todas"; "Contagem"] = []) ∧
  filtrar cidade "Todas" ["Todas"; "Contagem"] df_cidades = df_cidades.
Proof.
  assert ("Todas" ∈ ["Todas"; "Contagem"] ∨ ["Todas"; "Contagem"] = [])
    as Hs by (left; apply list_elem_of_here).
  split; [exact Hs|].
  exact (proj1 (sentinela_sem_restricao cidade "Todas"
                  ["Todas"; "Contagem"] df_cidades Hs)).
Defined.

(* ===================================================================== *)
(* Two sorting kinds that meet the interface                             *)
(* ===================================================================== *)

(* argsort_por R meets the interface as soon as R is total and refines the
   order of the items. *)
Section argsort_por.
Context (R : relation (Z * nat)) `{∀ x y, Decision (R x y)} `{!Total R}.
Hypothesis R_itens : ∀ x y, R x y → x.1 ≤ y.1.

Lemma argsort_por_perm items : argsort_por R items ≡ₚ seq 0 (length items).
Proof.
  unfold argsort_por. rewrite merge_sort_Permutation.
  by rewrite snd_zip by (by rewrite length_seq).
Qed.

Lemma take_idx_pares (items : list Z) (l : list (Z * nat)) :
  Forall (λ kv, items !! kv.2 = Some kv.1) l →
  take_idx items (l.*2) = l.*1.
Proof.
  induction 1 as [|kv l Hkv _ IH]; [done|].
  rewrite !fmap_cons, take_idx_cons, Hkv. by rewrite IH.
Qed.

Lemma zip_seq_lookup (items : list Z) :
  Forall (λ kv, items !! kv.2 = Some kv.1)
         (zip items (seq 0 (length items))).
Proof.
  apply Forall_forall. intros [x i] Hxi. simpl.
  apply list_elem_of_lookup in Hxi as [j Hj].
  apply lookup_zip_with_Some in Hj as (x' & i' & [= <- <-] & Hx & Hi).
  by apply lookup_seq in Hi as [-> _].
Qed.

Lemma argsort_por_sorted items :
  Sorted Z.le (take_idx items (argsort_por R items)).
Proof.
  unfold argsort_por. rewrite take_idx_pares.
  - apply (Sorted_fmap fst R Z.le); [apply R_itens|].
    by apply Sorted_merge_sort.
  - rewrite merge_sort_Permutation. apply zip_seq_lookup.
Qed.

Definition kind_por : Argsort :=
  {| argsort := argsort_por R;
     argsort_perm := argsort_por_perm;
     argsort_sorted := argsort_por_sorted |}.
End argsort_por.

#[global] Instance R_estavel_trans : Transitive R_estavel.
Proof. intros [??] [??] [??]. unfold R_estavel. simpl. lia. Qed.

#[global] Instance R_estavel_total : Total R_estavel.
Proof. intros [k1 i1] [k2 i2]. unfold R_estavel. simpl. lia. Qed.

#[global] Instance R_inverte_total : Total R_inverte.
Proof. intros [k1 i1] [k2 i2]. unfold R_inverte. simpl. lia. Qed.

Lemma R_estavel_itens x y : R_estavel x y → x.1 ≤ y.1.
Proof. unfold R_estavel. lia. Qed.

Lemma R_inverte_itens x y : R_inverte x y → x.1 ≤ y.1.
Proof. unfold R_inverte. lia. Qed.

Definition kind_estavel : Argsort := kind_por R_estavel R_estavel_itens.

Definition kind_inverte : Argsort := kind_por R_inverte R_inverte_itens.

(* ===================================================================== *)
(* With a stable kind ties keep the order of the groups                  *)
(* ===================================================================== *)

Lemma StronglySorted_fmap_elem {A B} (f : A → B) (R1 : relation A)
    (R2 : relation B) (l : list A) :
  (∀ x y, x ∈ l → y ∈ l → R1 x y → R2 (f x) (f y)) →
  StronglySorted R1 l → StronglySorted R2 (f <$> l).
Proof.
  intros Hf. induction 1 as [|x l Hl IH Hx]; [constructor|].
  rewrite fmap_cons. constructor.
  - apply IH. intros y z Hy Hz. apply Hf; by right.
  - rewrite Forall_fmap. rewrite Forall_forall in Hx |- *.
    intros y Hy. apply Hf; [by left|by right|by apply Hx].
Qed.

Lemma StronglySorted_reverse {A} (R : relation A) (l : list A) :
  StronglySorted R l → StronglySorted (flip R) (reverse l).
Proof.
  induction 1 as [|x l Hl IH Hx]; [constructor|].
  rewrite reverse_cons. apply StronglySorted_app_2; [|done|repeat constructor].
  intros y z Hy ->%list_elem_of_singleton.
  rewrite elem_of_reverse in Hy. rewrite Forall_forall in Hx. by apply Hx.
Qed.

Lemma StronglySorted_filter {A} (R : relation A) (P : A → Prop)
    `{∀ x, Decision (P x)} (l : list A) :
  StronglySorted R l → StronglySorted R (filter P l).
Proof.
  induction 1 as [|x l Hl IH Hx]; [constructor|].
  rewrite filter_cons. case_decide; [|done].
  constructor; [done|]. rewrite Forall_forall in Hx |- *.
  intros y [_ Hy]%list_elem_of_filter. by apply Hx.
Qed.

Lemma StronglySorted_seq j n : StronglySorted le (seq j n).
Proof.
  revert j. induction n as [|n IH]; intros j; [constructor|].
  simpl. constructor; [apply IH|].
  apply Forall_forall. intros i Hi%elem_of_seq. lia.
Qed.

Lemma take_idx_reverse_seq_fmap n (js : list nat) :
  Forall (λ j, j < n)%nat js →
  take_idx (reverse (seq 0 n)) js = (λ j, n - S j)%nat <$> js.
Proof.
  induction 1 as [|j js Hj _ IH]; [done|].
  rewrite take_idx_cons, fmap_cons, IH.
  rewrite reverse_lookup by (by rewrite length_seq).
  by rewrite length_seq, lookup_seq_lt by lia.
Qed.

(* Filtering the rows read through an indexer is reading through the
   filtered indexer. *)
Lemma filter_take_idx {A} (P : A → Prop) `{∀ x, Decision (P x)}
    (Q : nat → Prop) `{∀ i, Decision (Q i)} (l : list A) indexer :
  (∀ i x, l !! i = Some x → (Q i ↔ P x)) →
  filter P (take_idx l indexer) = take_idx l (filter Q indexer).
Proof.
  intros HQ. induction indexer as [|i indexer IH]; [done|].
  rewrite take_idx_cons, filter_cons.
  destruct (l !! i) as [x|] eqn:Hi.
  - rewrite filter_cons. specialize (HQ i x Hi).
    destruct (decide (Q i)), (decide (P x)); try tauto.
    by rewrite take_idx_cons, Hi, IH.
  - case_decide; [|done]. by rewrite take_idx_cons, Hi.
Qed.

Section estabilidade.
Context {A : Type} (by_ : A → Z) (df : list A).

Lemma nargsort_desc_estavel :
  StronglySorted (antes by_ df) (nargsort_desc kind_estavel (by_ <$> df)).
Proof.
  unfold nargsort_desc. simpl. unfold argsort_por.
  set (items := by_ <$> df).
  set (sp := merge_sort R_estavel (zip (reverse items) (seq 0 (length (reverse items))))).
  assert (Forall (λ kv, reverse items !! kv.2 = Some kv.1) sp) as Hsp.
  { subst sp. rewrite merge_sort_Permutation. apply zip_seq_lookup. }
  assert (StronglySorted R_estavel sp) as Hss
    by apply (StronglySorted_merge_sort R_estavel).
  rewrite take_idx_reverse_seq_fmap.
  2: { rewrite Forall_fmap. eapply Forall_impl; [exact Hsp|].
       intros [x j] Hj. simpl in *. apply lookup_lt_Some in Hj.
       by rewrite length_reverse in Hj. }
  rewrite <- list_fmap_compose, <- fmap_reverse.
  apply (StronglySorted_fmap_elem _ (flip R_estavel)).
  2: by apply StronglySorted_reverse.
  intros [x i] [y j] Hi Hj Hr. rewrite elem_of_reverse in Hi, Hj.
  rewrite Forall_forall in Hsp.
  pose proof (Hsp _ Hi) as Hxi. pose proof (Hsp _ Hj) as Hyj. simpl in *.
  pose proof (lookup_lt_Some _ _ _ Hxi) as Hli.
  pose proof (lookup_lt_Some _ _ _ Hyj) as Hlj.
  rewrite length_reverse in Hli, Hlj.
  rewrite reverse_lookup in Hxi, Hyj by done.
  exists x, y. split_and!; [done..|].
  unfold flip, R_estavel in Hr. simpl in Hr. lia.
Qed.

Lemma sort_values_desc_estavel :
  estavel by_ df (sort_values_desc kind_estavel by_ df).
Proof.
  intros k. unfold sort_values_desc.
  set (Q := λ i : nat, (by_ <$> df) !! i = Some k).
  assert (∀ i x, df !! i = Some x → (Q i ↔ by_ x = k)) as HQ.
  { intros i x Hi. unfold Q. rewrite list_lookup_fmap, Hi. simpl.
    naive_solver. }
  pose proof (filter_take_idx (λ x, by_ x = k) Q df) as Hf.
  rewrite (Hf (nargsort_desc kind_estavel (by_ <$> df)) HQ).
  transitivity (take_idx df (filter Q (seq 0 (length df)))).
  2: by rewrite <- (Hf (seq 0 (length df)) HQ), take_idx_seq.
  f_equal. apply (StronglySorted_unique le).
  - rewrite <- (list_fmap_id (filter Q _)).
    apply (StronglySorted_fmap_elem id (antes by_ df) le).
    + intros i j [Hi _]%list_elem_of_filter [Hj _]%list_elem_of_filter
        (x & y & Hx & Hy & Hxy).
      unfold Q in Hi, Hj. rewrite Hx in Hi. rewrite Hy in Hj.
      simplify_eq. simpl. lia.
    + apply StronglySorted_filter, nargsort_desc_estavel.
  - apply StronglySorted_filter, StronglySorted_seq.
  - rewrite nargsort_desc_Permutation. by rewrite length_fmap.
Qed.
End estabilidade.

(* ===================================================================== *)
(* The detail tables                                                     *)
(* ===================================================================== *)

(** C4: each detail table has exactly one row per customer of its
    partition, whatever the number of transactions of each customer: as
    many rows as the partition has customers, no customer twice, the
    customers of the rows being those of the partition; the table is empty
    iff the partition is, which is when main shows no table. *)
Theorem uma_linha_por_cliente (S : Argsort) (df : DataFrame)
    (produto_a produto_b : Z) :
  let r := analisar_venda_cruzada df produto_a produto_b in
  uma_por_cliente Detalhe.Cliente (apenas_a r)
    (linhas_de (df_apenas_a S df r produto_a)) ∧
  uma_por_cliente Detalhe.Cliente (apenas_b r)
    (linhas_de (df_apenas_b S df r produto_b)) ∧
  uma_por_cliente Ambos.Cliente (ambos r)
    (linhas_de (df_ambos S df r produto_a produto_b)) ∧
  (df_apenas_a S df r produto_a = None ↔ apenas_a r = ∅) ∧
  (df_apenas_b S df r produto_b = None ↔ apenas_b r = ∅) ∧
  (df_ambos S df r produto_a produto_b = None ↔ ambos r = ∅).
Proof.
  intros r.
  assert (∀ X : gset Z, ¬ (0 < size X)%nat ↔ X = ∅) as Hvazio.
  { intros X. rewrite <- (leibniz_equiv_iff X ∅), <- size_empty_iff. lia. }
  split_and!.
  - rewrite linhas_de_df_apenas_a. apply detalhe_produto_uma.
    intros c Hc. by apply elem_of_apenas_a in Hc as [? _].
  - rewrite linhas_de_df_apenas_b. apply detalhe_produto_uma.
    intros c Hc. by apply elem_of_apenas_b in Hc as [? _].
  - rewrite linhas_de_df_ambos. apply ambos_ordenado_uma.
    intros c Hc. by apply elem_of_ambos in Hc.
  - unfold df_apenas_a. rewrite <- Hvazio. case_decide; naive_solver.
  - unfold df_apenas_b. rewrite <- Hvazio. case_decide; naive_solver.
  - unfold df_ambos. rewrite <- Hvazio. case_decide; naive_solver.
Qed.

(* The int64 'sum': wrapping every partial total is wrapping the sum. *)
Lemma wrap64_add_l (a v : Z) : wrap64 (wrap64 a + v) = wrap64 (a + v).
Proof.
  unfold wrap64. f_equal.
  replace ((a + 2 ^ 63) `mod` 2 ^ 64 - 2 ^ 63 + v + 2 ^ 63)
    with ((a + 2 ^ 63) `mod` 2 ^ 64 + v) by lia.
  rewrite Zplus_mod_idemp_l. f_equal. lia.
Qed.

Lemma wrap64_no_intervalo (z : Z) :
  - 2 ^ 63 ≤ z < 2 ^ 63 → wrap64 z = z.
Proof. intros Hz. unfold wrap64. rewrite Z.mod_small; lia. Qed.

Lemma foldl_wrap64 (zs : list Z) (a : Z) :
  foldl (λ sumx val, wrap64 (sumx + val)) (wrap64 a) zs =
  wrap64 (a + soma_exata zs).
Proof.
  revert a. induction zs as [|z zs IH]; intros a; simpl.
  - f_equal. lia.
  - rewrite wrap64_add_l, IH. f_equal. lia.
Qed.

Lemma inteiros_fmap (zs : list Z) : inteiros (Inteiro <$> zs) = Some zs.
Proof. induction zs as [|z zs IH]; csimpl; [done|]. by rewrite IH. Qed.

Lemma inteiros_Real (l : list Numero) (f : float) :
  Real f ∈ l → inteiros l = None.
Proof.
  induction l as [|[z|g] l IH]; [by intros ?%elem_of_nil| |done].
  intros [?|Hf]%elem_of_cons; [done|]. simpl. by rewrite IH.
Qed.

Lemma filter_nao_nulos (l : list Numero) :
  filter (λ x, ¬ nulo x) l = nao_nulos l.
Proof.
  induction l as [|[z|f] l IH]; [done| |].
  - rewrite filter_cons_True by (simpl; tauto). simpl. by rewrite IH.
  - simpl. destruct (is_nan f) eqn:Hf.
    + rewrite filter_cons_False by (simpl; rewrite Hf; simpl; tauto). done.
    + rewrite filter_cons_True by (simpl; rewrite Hf; simpl; tauto).
      by rewrite IH.
Qed.

Lemma agg_sum_inteiros (zs : list Z) :
  agg_sum (Inteiro <$> zs) = SomaInt64 (wrap64 (soma_exata zs)).
Proof.
  unfold agg_sum. rewrite inteiros_fmap. f_equal.
  pose proof (foldl_wrap64 zs 0) as H. rewrite Z.add_0_l in H.
  rewrite <- H. reflexivity.
Qed.

Lemma agg_sum_soma_da_coluna (l : list Numero) :
  soma_da_coluna l (agg_sum l).
Proof.
  split.
  - intros zs ->. rewrite agg_sum_inteiros. split; [done|].
    intros Hz. by rewrite wrap64_no_intervalo.
  - intros [f Hf]. unfold agg_sum. rewrite (inteiros_Real l f) by done.
    f_equal. apply filter_nao_nulos.
Qed.

(** C5, as amended: the total quantity of a row is the column's sum of
    quant over exactly that customer's transactions in the filtered set,
    of the given product in the only_a and only_b tables and of any
    product in the both table: for integer quantities the exact sum
    reduced modulo 2^64 into the signed 64-bit range, which is the exact
    sum whenever that lies in the range, and for a float column the
    float64 sum of exactly those cells; and no transaction passes the mask
    of two tables. *)
Theorem quantidade_por_cliente (S : Argsort) (df : DataFrame)
    (produto_a produto_b : Z) :
  let r := analisar_venda_cruzada df produto_a produto_b in
  Forall (λ linha,
            soma_da_coluna
              (quant <$> filter (λ v, cliente v = Detalhe.Cliente linha ∧
                                      mercadoria v = produto_a) df)
              (Detalhe.QtdTotal linha))
         (linhas_de (df_apenas_a S df r produto_a)) ∧
  Forall (λ linha,
            soma_da_coluna
              (quant <$> filter (λ v, cliente v = Detalhe.Cliente linha ∧
                                      mercadoria v = produto_b) df)
              (Detalhe.QtdTotal linha))
         (linhas_de (df_apenas_b S df r produto_b)) ∧
  Forall (λ linha,
            soma_da_coluna
              (quant <$> filter (λ v, cliente v = Ambos.Cliente linha) df)
              (Ambos.QtdTotal linha))
         (linhas_de (df_ambos S df r produto_a produto_b)) ∧
  (∀ v, ¬ (mascara_produto (apenas_a r) produto_a v ∧
           mascara_produto (apenas_b r) produto_b v) ∧
        ¬ (mascara_produto (apenas_a r) produto_a v ∧
           mascara_clientes (ambos r) v) ∧
        ¬ (mascara_produto (apenas_b r) produto_b v ∧
           mascara_clientes (ambos r) v)).
Proof.
  intros r. split_and!.
  - rewrite linhas_de_df_apenas_a. apply Forall_forall. intros linha Hl.
    apply detalhe_produto_linha in Hl as [_ Hl].
    remember (Detalhe.Cliente linha) as c. clear Heqc. rewrite Hl. simpl.
    apply agg_sum_soma_da_coluna.
  - rewrite linhas_de_df_apenas_b. apply Forall_forall. intros linha Hl.
    apply detalhe_produto_linha in Hl as [_ Hl].
    remember (Detalhe.Cliente linha) as c. clear Heqc. rewrite Hl. simpl.
    apply agg_sum_soma_da_coluna.
  - rewrite linhas_de_df_ambos. apply Forall_forall. intros linha Hl.
    apply ambos_ordenado_linha in Hl as [_ Hl].
    + simpl in Hl. remember (Ambos.Cliente linha) as c. clear Heqc.
      rewrite Hl. simpl. apply agg_sum_soma_da_coluna.
    + intros c Hc. by apply elem_of_ambos in Hc.
  - intros v. unfold mascara_produto, mascara_clientes. subst r. simpl.
    set_solver.
Qed.

(** C5, the claim as worded fails: the two purchases of df_transborda add
    up to 2^63, and the row of the only_a table shows -2^63, whatever the
    sorting kind.  The sum is taken in the 64-bit integers of the
    column. *)
Lemma quantidade_transborda :
  ¬ (∃ S : Argsort,
       let r := analisar_venda_cruzada df_transborda 10 20 in
       Forall (λ linha,
                 soma_afirmada
                   (quant <$> filter (λ v, cliente v = Detalhe.Cliente linha ∧
                                           mercadoria v = 10) df_transborda)
                   (Detalhe.QtdTotal linha))
              (linhas_de (df_apenas_a S df_transborda r 10))).
Proof.
  intros [S H]. simpl in H. rewrite Forall_forall in H.
  set (linha := agg_detalhe (1, df_transborda)).
  assert (linha ∈ linhas_de
            (df_apenas_a S df_transborda
               (analisar_venda_cruzada df_transborda 10 20) 10)) as Hl.
  { rewrite linhas_de_df_apenas_a. unfold detalhe_produto.
    apply elem_of_sort_values_desc.
    replace (detalhe_agrupado df_transborda
               (apenas_a (analisar_venda_cruzada df_transborda 10 20)) 10)
      with [linha] by (by vm_compute).
    apply list_elem_of_singleton. done. }
  specialize (H linha Hl [2 ^ 62; 2 ^ 62]).
  assert (Detalhe.QtdTotal linha = SomaInt64 (soma_exata [2 ^ 62; 2 ^ 62]))
    as Hq by (apply H; by vm_compute).
  vm_compute in Hq. discriminate Hq.
Qed.

(** C6, as amended: in the both table the products field of a customer is
    the first description on record for product A, the separator and the
    first description on record for product B, when both exist; when one
    side has no description the field is null, and the computation does not
    fail. *)
Theorem produtos_concatenados (S : Argsort) (df : DataFrame)
    (produto_a produto_b : Z) :
  let r := analisar_venda_cruzada df produto_a produto_b in
  Forall (λ linha,
            Ambos.Produtos linha =
            produtos_calculado
              (primeira_descricao df (Ambos.Cliente linha) produto_a)
              (primeira_descricao df (Ambos.Cliente linha) produto_b))
         (linhas_de (df_ambos S df r produto_a produto_b)).
Proof.
  intros r. rewrite linhas_de_df_ambos. apply Forall_forall. intros linha Hl.
  apply ambos_ordenado_linha in Hl as [_ Hl].
  2: { intros c Hc. by apply elem_of_ambos in Hc. }
  rewrite Hl at 1. simpl. unfold primeira_descricao, produtos_calculado.
  destruct (agg_first _) as [a|]; [|done].
  destruct (agg_first _) as [b|]; [|done].
  simpl. by rewrite str_app_assoc.
Qed.

(** C6 as the specification states it (a missing side counts as the empty
    string) fails where a side has no description: the field is null, not
    the other side after the separator. *)
Lemma produtos_lado_ausente :
  ¬ (∀ (S : Argsort) (df : DataFrame) (produto_a produto_b : Z),
       Forall (λ linha,
                 Ambos.Produtos linha =
                 produtos_afirmado
                   (primeira_descricao df (Ambos.Cliente linha) produto_a)
                   (primeira_descricao df (Ambos.Cliente linha) produto_b))
              (linhas_de (df_ambos S df
                            (analisar_venda_cruzada df produto_a produto_b)
                            produto_a produto_b))).
Proof.
  intros H. specialize (H kind_estavel df_sem_descricao 10 20).
  vm_compute in H. inversion H as [|?? Hp _]. discriminate Hp.
Qed.

(** X18: whatever sorting kind pandas runs, every detail table is sorted
    by last purchase date, descending, and holds the rows of the groups as
    groupby emitted them, each once. *)
Theorem tabelas_ordenadas (S : Argsort) (df : DataFrame)
    (produto_a produto_b : Z) :
  let r := analisar_venda_cruzada df produto_a produto_b in
  let Ta := linhas_de (df_apenas_a S df r produto_a) in
  let Tb := linhas_de (df_apenas_b S df r produto_b) in
  let Tab := linhas_de (df_ambos S df r produto_a produto_b) in
  (ordenada_desc Detalhe.UltimaCompra Ta ∧
   Ta ≡ₚ detalhe_agrupado df (apenas_a r) produto_a) ∧
  (ordenada_desc Detalhe.UltimaCompra Tb ∧
   Tb ≡ₚ detalhe_agrupado df (apenas_b r) produto_b) ∧
  (ordenada_desc Ambos.UltimaCompra Tab ∧
   Tab ≡ₚ ambos_agrupado df (ambos r) produto_a produto_b).
Proof.
  intros r Ta Tb Tab. subst Ta Tb Tab.
  rewrite linhas_de_df_apenas_a, linhas_de_df_apenas_b, linhas_de_df_ambos.
  unfold ordenada_desc, detalhe_produto, ambos_ordenado.
  split_and!; first [apply sort_values_desc_Sorted
                    |apply sort_values_desc_Permutation].
Qed.

(* What numpy promises of a sorting kind does not settle the order of
   ties: kind_inverte meets the promise and returns two customers of the
   same last purchase date in the order opposite to that of their groups.
   This is a fact about the interface, not a trace of numpy's default
   kernel: which order that kernel gives to ties is not decided by the
   script. *)
Lemma contrato_nao_fixa_empates :
  ¬ (∀ (S : Argsort) (df : DataFrame) (produto_a produto_b : Z),
       let r := analisar_venda_cruzada df produto_a produto_b in
       let Ta := linhas_de (df_apenas_a S df r produto_a) in
       ordenada_desc Detalhe.UltimaCompra Ta ∧
       estavel Detalhe.UltimaCompra
         (detalhe_agrupado df (apenas_a r) produto_a) Ta).
Proof.
  intros H. destruct (H kind_inverte df_empate 10 20) as [_ He].
  specialize (He 5). vm_compute in He. discriminate He.
Qed.

(* Had sort_values been given a stable kind, every table would keep its
   ties in the order of the groups. *)
Lemma tabelas_estaveis_kind_estavel (df : DataFrame) (produto_a produto_b : Z) :
  let r := analisar_venda_cruzada df produto_a produto_b in
  estavel Detalhe.UltimaCompra
    (detalhe_agrupado df (apenas_a r) produto_a)
    (linhas_de (df_apenas_a kind_estavel df r produto_a)) ∧
  estavel Detalhe.UltimaCompra
    (detalhe_agrupado df (apenas_b r) produto_b)
    (linhas_de (df_apenas_b kind_estavel df r produto_b)) ∧
  estavel Ambos.UltimaCompra
    (ambos_agrupado df (ambos r) produto_a produto_b)
    (linhas_de (df_ambos kind_estavel df r produto_a produto_b)).
Proof.
  intros r.
  rewrite linhas_de_df_apenas_a, linhas_de_df_apenas_b, linhas_de_df_ambos.
  split_and!; apply sort_values_desc_estavel.
Qed.

(* ===================================================================== *)
(* The scenarios of the specification, evaluated                         *)
(* ===================================================================== *)

Module Cenarios.
Example analise :
  let r := analisar_venda_cruzada df_cenario 10 20 in
  apenas_a r = {[2]} ∧ apenas_b r = ∅ ∧ ambos r = {[1]} ∧
  (count_apenas_a r, count_apenas_b r, count_ambos r) = (1, 0, 1)%nat ∧
  (total_a r, total_b r) = (2, 1)%nat ∧
  (∃ q, taxa_conversao r = Some q ∧ (q == 50)%Q).
Proof.
  split_and!; try by vm_compute.
  eexists; split; [by vm_compute|reflexivity].
Qed.

Example registros_vazios :
  let r := analisar_venda_cruzada [] 10 20 in
  apenas_a r = ∅ ∧ apenas_b r = ∅ ∧ ambos r = ∅ ∧
  (count_apenas_a r, count_apenas_b r, count_ambos r) = (0, 0, 0)%nat ∧
  taxa_conversao r = Some 0%Q.
Proof. by vm_compute. Qed.

Example filtro_cidade :
  aplicar_filtros df_cidades ["Belo Horizonte"] ["Todos"] ["Todas"] ["Todas"]
  = [venda_em 1 (Some "Belo Horizonte"); venda_em 4 (Some "Belo Horizonte")].
Proof. by vm_compute. Qed.

Example sentinela_com_outros_valores :
  aplicar_filtros df_cidades ["Todas"; "Contagem"] [] ["Todas"] [] =
  df_cidades.
Proof. by vm_compute. Qed.

Example produtos_do_cenario :
  Ambos.Produtos <$>
    linhas_de (df_ambos kind_estavel df_cenario
                 (analisar_venda_cruzada df_cenario 10 20) 10 20)
  = [Some "PA | PB"].
Proof. by vm_compute. Qed.

Example quantidade_ambos :
  Ambos.QtdTotal <$>
    linhas_de (df_ambos kind_estavel df_cenario
                 (analisar_venda_cruzada df_cenario 10 20) 10 20)
  = [SomaInt64 3].
Proof. by vm_compute. Qed.

(* 2^62 + 2^62 in the 64-bit integers of the column. *)
Example quantidade_de_transborda :
  Detalhe.QtdTotal <$>
    linhas_de (df_apenas_a kind_estavel df_transborda
                 (analisar_venda_cruzada df_transborda 10 20) 10)
  = [SomaInt64 (- 2 ^ 63)].
Proof. by vm_compute. Qed.

(* On a float column the cell is the float64 sum of the customer's cells
   that are not NULL. *)
Example quantidade_fracionada :
  Detalhe.QtdTotal <$>
    linhas_de (df_apenas_a kind_estavel df_fracionado
                 (analisar_venda_cruzada df_fracionado 10 20) 10)
  = [SomaFloat64 [Real 0.5%float; Real 0.25%float]].
Proof. by vm_compute. Qed.

(* Two tied customers under the two ways of ordering ties defined above;
   the script itself leaves the choice to numpy's default. *)
Example empate_kind_estavel :
  Detalhe.Cliente <$>
    linhas_de (df_apenas_a kind_estavel df_empate
                 (analisar_venda_cruzada df_empate 10 20) 10)
  = [1; 2].
Proof. by vm_compute. Qed.

Example empate_kind_inverte :
  Detalhe.Cliente <$>
    linhas_de (df_apenas_a kind_inverte df_empate
                 (analisar_venda_cruzada df_empate 10 20) 10)
  = [2; 1].
Proof. by vm_compute. Qed.

Example sem_descricao :
  Ambos.Produtos <$>
    linhas_de (df_ambos kind_estavel df_sem_descricao
                 (analisar_venda_cruzada df_sem_descricao 10 20) 10 20)
  = [None].
Proof. by vm_compute. Qed.
End Cenarios.

(* ===================================================================== *)
(* Further properties of the analyzer and of the figures drawn from it   *)
(* ===================================================================== *)

(* The result depends on the records only through who bought the two
   products. *)
Lemma analisar_ext (df df' : DataFrame) (produto_a produto_b : Z) :
  (∀ c, comprou df produto_a c ↔ comprou df' produto_a c) →
  (∀ c, comprou df produto_b c ↔ comprou df' produto_b c) →
  analisar_venda_cruzada df produto_a produto_b =
  analisar_venda_cruzada df' produto_a produto_b.
Proof.
  intros Ha Hb. unfold analisar_venda_cruzada.
  assert (clientes_de df produto_a = clientes_de df' produto_a) as ->.
  { apply set_eq. intros c. by rewrite !elem_of_clientes_de. }
  assert (clientes_de df produto_b = clientes_de df' produto_b) as ->.
  { apply set_eq. intros c. by rewrite !elem_of_clientes_de. }
  done.
Qed.

Lemma comprou_Permutation (df df' : DataFrame) p c :
  df ≡ₚ df' → comprou df p c ↔ comprou df' p c.
Proof. intros Hp. unfold comprou. by setoid_rewrite Hp. Qed.

Lemma size_difference_intersection (A B : gset Z) :
  (size (A ∖ B) + size (A ∩ B) = size A)%nat.
Proof.
  rewrite <- size_union by set_solver. f_equal.
  apply set_eq. intros c. destruct (decide (c ∈ B)); set_solver.
Qed.

Lemma count_ambos_le_total_a df produto_a produto_b :
  let r := analisar_venda_cruzada df produto_a produto_b in
  (count_ambos r ≤ total_a r)%nat.
Proof. simpl. apply subseteq_size. set_solver. Qed.

Lemma total_geral_union df produto_a produto_b :
  let r := analisar_venda_cruzada df produto_a produto_b in
  total_geral r = size (clientes_a r ∪ clientes_b r).
Proof.
  intros r. unfold total_geral. subst r. simpl.
  rewrite <- !size_union by set_solver. f_equal.
  apply set_eq. intros c.
  destruct (decide (c ∈ clientes_de df produto_a)),
           (decide (c ∈ clientes_de df produto_b)); set_solver.
Qed.

(** X1: the "Total Clientes" figure of the Venn diagram and the sum of the
    three bars of the bar chart are both the number of distinct customers
    who bought product A or product B, which is
    total_a + total_b - count_ambos; the bars show the three numbers of the
    diagram. *)
Theorem total_de_clientes (df : DataFrame) (produto_a produto_b : Z) :
  let r := analisar_venda_cruzada df produto_a produto_b in
  total_geral r = size (clientes_a r ∪ clientes_b r) ∧
  sum_list (valores r) = total_geral r ∧
  (total_geral r + count_ambos r = total_a r + total_b r)%nat ∧
  valores r ≡ₚ [(venn_subsets r).1.1; (venn_subsets r).1.2; (venn_subsets r).2] ∧
  (∀ c, c ∈ clientes_a r ∪ clientes_b r ↔
        comprou df produto_a c ∨ comprou df produto_b c).
Proof.
  intros r. split_and!.
  - apply total_geral_union.
  - unfold total_geral, valores. simpl. lia.
  - unfold total_geral. subst r. simpl.
    pose proof (size_difference_intersection
                  (clientes_de df produto_a) (clientes_de df produto_b)) as Ha.
    pose proof (size_difference_intersection
                  (clientes_de df produto_b) (clientes_de df produto_a)) as Hb.
    assert (clientes_de df produto_b ∩ clientes_de df produto_a =
            clientes_de df produto_a ∩ clientes_de df produto_b) as Hc
      by set_solver.
    rewrite Hc in Hb. lia.
  - unfold valores, venn_subsets. simpl. apply perm_skip, perm_swap.
  - intros c. subst r. simpl.
    by rewrite elem_of_union, !elem_of_clientes_de.
Qed.

Lemma Qmake_100_bounds (a b : nat) :
  (a ≤ S b)%nat →
  (0 <= (Z.of_nat a # Pos.of_nat (S b)) * 100)%Q ∧
  ((Z.of_nat a # Pos.of_nat (S b)) * 100 <= 100)%Q ∧
  (((Z.of_nat a # Pos.of_nat (S b)) * 100 == 100)%Q ↔ a = S b) ∧
  (((Z.of_nat a # Pos.of_nat (S b)) * 100 == 0)%Q ↔ a = O).
Proof.
  intros Hab.
  assert (Z.pos (Pos.of_nat (S b)) = Z.of_nat (S b)) as Hpos
    by (rewrite <- Pos.of_nat_succ; lia).
  unfold Qle, Qeq, Qmult. simpl Qnum. simpl Qden.
  rewrite ?Pos.mul_1_r, ?Z.mul_1_r, Hpos. lia.
Qed.

(** X2: for the result of the analyzer the conversion rate lies between 0
    and 100; it is 100 exactly when product A has customers and all of them
    also bought product B, and 0 exactly when no customer bought both. *)
Theorem taxa_conversao_limites (df : DataFrame) (produto_a produto_b : Z) :
  let r := analisar_venda_cruzada df produto_a produto_b in
  ∃ q, taxa_conversao r = Some q ∧
       (0 <= q)%Q ∧ (q <= 100)%Q ∧
       ((q == 100)%Q ↔ clientes_a r ≠ ∅ ∧ clientes_a r ⊆ clientes_b r) ∧
       ((q == 0)%Q ↔ ambos r = ∅).
Proof.
  intros r.
  pose proof (count_ambos_le_total_a df produto_a produto_b) as Hle.
  pose proof (apenas_a_ambos_union df produto_a produto_b) as Hu.
  fold r in Hle. simpl in Hle, Hu.
  assert (∀ X : gset Z, size X = O ↔ X = ∅) as Hvazio.
  { intros X. by rewrite size_empty_iff, leibniz_equiv_iff. }
  unfold taxa_conversao, truediv. subst r. simpl in *.
  set (A := clientes_de df produto_a) in *.
  set (B := clientes_de df produto_b) in *.
  destruct (size A) as [|n] eqn:HA.
  - rewrite decide_False by lia. apply Hvazio in HA.
    exists 0%Q. split_and!; [done|done|done| |].
    + split; [intros [=]|]. intros [? _]. done.
    + split; [|done]. intros _. rewrite HA. set_solver.
  - rewrite decide_True by lia. simpl.
    destruct (Qmake_100_bounds (size (A ∩ B)) n Hle) as (H0 & H100 & He1 & He0).
    eexists. split_and!; [done|done|done| |].
    + rewrite He1. rewrite <- HA. split.
      * intros Heq. split; [intros HAe; rewrite HAe, size_empty in HA; lia|].
        assert (size (A ∖ B) = O) as Hd.
        { pose proof (size_difference_intersection A B). lia. }
        apply Hvazio in Hd. intros c Hc.
        destruct (decide (c ∈ B)); [done|]. set_solver.
      * intros [_ Hsub]. f_equal. set_solver.
    + by rewrite He0, Hvazio.
Qed.

(** X3: exchanging the two products exchanges the A-only and B-only sets
    and their counts and the two totals, and leaves the set of customers of
    both, and its count, as they are. *)
Theorem analisar_produtos_trocados (df : DataFrame) (produto_a produto_b : Z) :
  let r := analisar_venda_cruzada df produto_a produto_b in
  let r' := analisar_venda_cruzada df produto_b produto_a in
  clientes_a r' = clientes_b r ∧ clientes_b r' = clientes_a r ∧
  apenas_a r' = apenas_b r ∧ apenas_b r' = apenas_a r ∧
  ambos r' = ambos r ∧
  total_a r' = total_b r ∧ total_b r' = total_a r ∧
  count_apenas_a r' = count_apenas_b r ∧
  count_apenas_b r' = count_apenas_a r ∧
  count_ambos r' = count_ambos r ∧
  total_geral r' = total_geral r.
Proof.
  intros r r'. subst r r'. unfold total_geral. simpl.
  assert (clientes_de df produto_b ∩ clientes_de df produto_a =
          clientes_de df produto_a ∩ clientes_de df produto_b) as ->
    by set_solver.
  split_and!; try done. lia.
Qed.

(** X4: the analysis does not depend on the order of the records: two
    record sets that are permutations of each other give the same result. *)
Theorem analisar_Permutation (df df' : DataFrame) (produto_a produto_b : Z) :
  df ≡ₚ df' →
  analisar_venda_cruzada df produto_a produto_b =
  analisar_venda_cruzada df' produto_a produto_b.
Proof.
  intros Hp. apply analisar_ext; intros c; by apply comprou_Permutation.
Qed.

Lemma analisar_Permutation_witness :
  df_cenario ≡ₚ reverse df_cenario ∧
  analisar_venda_cruzada df_cenario 10 20 =
  analisar_venda_cruzada (reverse df_cenario) 10 20.
Proof.
  assert (df_cenario ≡ₚ reverse df_cenario) as Hp
    by (symmetry; apply reverse_Permutation).
  split; [exact Hp|].
  exact (analisar_Permutation df_cenario (reverse df_cenario) 10 20 Hp).
Defined.

(** X5: repeated records and records of other products do not change the
    analysis: the record set taken twice, and the record set restricted to
    the transactions of the two products, give the result of the record set
    itself. *)
Theorem analisar_so_dois_produtos (df : DataFrame) (produto_a produto_b : Z) :
  analisar_venda_cruzada (df ++ df) produto_a produto_b =
  analisar_venda_cruzada df produto_a produto_b ∧
  analisar_venda_cruzada
    (filter (λ v, mercadoria v = produto_a ∨ mercadoria v = produto_b) df)
    produto_a produto_b =
  analisar_venda_cruzada df produto_a produto_b.
Proof.
  split; apply analisar_ext; intros c; unfold comprou.
  - setoid_rewrite elem_of_app. naive_solver.
  - setoid_rewrite elem_of_app. naive_solver.
  - setoid_rewrite list_elem_of_filter. naive_solver.
  - setoid_rewrite list_elem_of_filter. naive_solver.
Qed.

(* ===================================================================== *)
(* Further properties of the filter step and of the sidebar              *)
(* ===================================================================== *)

Lemma aplicar_filtros_filter (df : DataFrame) (c v a r : list string) :
  aplicar_filtros df c v a r = filter (passa (filtros_de c v a r)) df.
Proof.
  unfold aplicar_filtros. cbv zeta.
  rewrite !filtrar_restricao, !list_filter_filter.
  apply list_filter_iff. intros x. unfold passa, filtros_de. simpl. tauto.
Qed.

Lemma aplicar_filtros_sublist (df : DataFrame) (c v a r : list string) :
  aplicar_filtros df c v a r `sublist_of` df.
Proof. rewrite aplicar_filtros_filter. apply sublist_filter. Qed.

Lemma comprou_sublist (df df' : DataFrame) p c :
  df' `sublist_of` df → comprou df' p c → comprou df p c.
Proof.
  intros Hs (x & Hx & ?). exists x. split; [|done].
  by apply (sublist_subseteq _ _ Hs).
Qed.

Lemma clientes_de_sublist (df df' : DataFrame) p :
  df' `sublist_of` df → clientes_de df' p ⊆ clientes_de df p.
Proof.
  intros Hs c. rewrite !elem_of_clientes_de. by apply comprou_sublist.
Qed.

(** X6: filtering before the analysis can only take customers away from A,
    from B and from the customers of both: these three sets of the filtered
    analysis are included in those of the unfiltered one, so total_a,
    total_b, count_ambos and the total of customers do not grow; a customer
    of the filtered A-only set is a customer of the unfiltered A. *)
Theorem filtro_reduz_analise (df : DataFrame)
    (cidade_selecionada vendedor_selecionado
     atividade_selecionada rede_selecionada : list string)
    (produto_a produto_b : Z) :
  let df_filtrado := aplicar_filtros df cidade_selecionada
        vendedor_selecionado atividade_selecionada rede_selecionada in
  let r := analisar_venda_cruzada df produto_a produto_b in
  let rf := analisar_venda_cruzada df_filtrado produto_a produto_b in
  clientes_a rf ⊆ clientes_a r ∧ clientes_b rf ⊆ clientes_b r ∧
  ambos rf ⊆ ambos r ∧
  apenas_a rf ⊆ clientes_a r ∧ apenas_b rf ⊆ clientes_b r ∧
  (total_a rf ≤ total_a r)%nat ∧ (total_b rf ≤ total_b r)%nat ∧
  (count_ambos rf ≤ count_ambos r)%nat ∧
  (total_geral rf ≤ total_geral r)%nat.
Proof.
  intros df_filtrado r rf.
  pose proof (aplicar_filtros_sublist df cidade_selecionada
    vendedor_selecionado atividade_selecionada rede_selecionada) as Hs.
  fold df_filtrado in Hs.
  pose proof (clientes_de_sublist df df_filtrado produto_a Hs) as Ha.
  pose proof (clientes_de_sublist df df_filtrado produto_b Hs) as Hb.
  assert (clientes_a rf ∪ clientes_b rf ⊆ clientes_a r ∪ clientes_b r) as Hu
    by (subst r rf; simpl; set_solver).
  split_and!.
  - done.
  - done.
  - subst r rf. simpl. set_solver.
  - subst r rf. simpl. set_solver.
  - subst r rf. simpl. set_solver.
  - by apply subseteq_size.
  - by apply subseteq_size.
  - apply subseteq_size. subst r rf. simpl. set_solver.
  - subst r rf. rewrite !total_geral_union. by apply subseteq_size.
Qed.

Lemma filtrar_filtrar_comm col1 s1 sel1 col2 s2 sel2 (df : DataFrame) :
  filtrar col1 s1 sel1 (filtrar col2 s2 sel2 df) =
  filtrar col2 s2 sel2 (filtrar col1 s1 sel1 df).
Proof.
  rewrite !filtrar_restricao, !list_filter_filter.
  apply list_filter_iff. tauto.
Qed.

(** X7: the filter step judges each record on its own: it distributes over
    the concatenation of record sets, applying it a second time with the
    same selections changes nothing, any two of its field filters can be
    exchanged, and it never returns more records than it received. *)
Theorem filtros_registro_a_registro (df df' : DataFrame)
    (cidade_selecionada vendedor_selecionado
     atividade_selecionada rede_selecionada : list string) :
  let F := λ d, aplicar_filtros d cidade_selecionada vendedor_selecionado
                  atividade_selecionada rede_selecionada in
  F (df ++ df') = F df ++ F df' ∧
  F (F df) = F df ∧
  (∀ col1 s1 sel1 col2 s2 sel2,
     filtrar col1 s1 sel1 (filtrar col2 s2 sel2 df) =
     filtrar col2 s2 sel2 (filtrar col1 s1 sel1 df)) ∧
  (length (F df) ≤ length df)%nat.
Proof.
  intros F. subst F. cbv beta. split_and!.
  - rewrite !aplicar_filtros_filter. apply filter_app.
  - rewrite !aplicar_filtros_filter, list_filter_filter.
    apply list_filter_iff. tauto.
  - intros. apply filtrar_filtrar_comm.
  - apply sublist_length, aplicar_filtros_sublist.
Qed.

Lemma elem_of_dropna {A} (l : list (option A)) x :
  x ∈ dropna l ↔ Some x ∈ l.
Proof.
  unfold dropna. rewrite list_elem_of_omap. naive_solver.
Qed.

Lemma elem_of_valores_da_coluna coluna (df : DataFrame) s :
  s ∈ valores_da_coluna coluna df ↔ ∃ v, v ∈ df ∧ coluna v = Some s.
Proof.
  unfold valores_da_coluna.
  rewrite merge_sort_Permutation, elem_of_unique, elem_of_dropna,
    list_elem_of_fmap.
  naive_solver.
Qed.

(** X8: the options of each of the four multiselects are the sentinel
    followed by the values of the column that occur in the loaded records,
    nulls left out, each once; the values of the text columns cidade,
    atividade and rede come in ascending order. *)
Theorem opcoes_dos_filtros (sentinela : string)
    (coluna : Venda → option string) (df : DataFrame) :
  head (opcoes sentinela coluna df) = Some sentinela ∧
  tail (opcoes sentinela coluna df) = valores_da_coluna coluna df ∧
  (∀ s, s ∈ valores_da_coluna coluna df ↔ ∃ v, v ∈ df ∧ coluna v = Some s) ∧
  NoDup (valores_da_coluna coluna df) ∧
  StronglySorted String.le (valores_da_coluna cidade df) ∧
  StronglySorted String.le (valores_da_coluna atividade df) ∧
  StronglySorted String.le (valores_da_coluna rede df) ∧
  cidades_disponiveis df = opcoes "Todas" cidade df ∧
  vendedores_disponiveis df = opcoes "Todos" vendedor df ∧
  atividades_disponiveis df = opcoes "Todas" atividade df ∧
  redes_disponiveis df = opcoes "Todas" rede df.
Proof.
  split_and!; try done.
  - apply elem_of_valores_da_coluna.
  - unfold valores_da_coluna. rewrite merge_sort_Permutation.
    apply NoDup_unique.
  - apply (StronglySorted_merge_sort String.le).
  - apply (StronglySorted_merge_sort String.le).
  - apply (StronglySorted_merge_sort String.le).
Qed.

Lemma filter_ext_elem {A} (P Q : A → Prop) `{∀ x, Decision (P x)}
    `{∀ x, Decision (Q x)} (l : list A) :
  (∀ x, x ∈ l → P x ↔ Q x) → filter P l = filter Q l.
Proof.
  induction l as [|x l IH]; intros HPQ; [done|].
  rewrite !filter_cons, IH by (intros y Hy; apply HPQ; by right).
  pose proof (HPQ x (list_elem_of_here _ _)).
  repeat case_decide; tauto.
Qed.

(** X9: selecting every value offered for a field, without the sentinel, is
    not the same as selecting the sentinel: it keeps exactly the records
    whose attribute is not null (when no value of the column is spelled
    like the sentinel and some record has a value). *)
Theorem selecionar_todos_os_valores (sentinela : string)
    (coluna : Venda → option string) (df : DataFrame) :
  sentinela ∉ valores_da_coluna coluna df →
  (∃ v, v ∈ df ∧ is_Some (coluna v)) →
  filtrar coluna sentinela (valores_da_coluna coluna df) df =
  filter (λ v, is_Some (coluna v)) df.
Proof.
  intros Hs (v & Hv & [s Hvs]). unfold filtrar.
  assert (s ∈ valores_da_coluna coluna df) as Hin
    by (apply elem_of_valores_da_coluna; eauto).
  rewrite decide_True.
  - apply filter_ext_elem. intros x Hx.
    destruct (coluna x) as [t|] eqn:Hx'; simpl.
    + rewrite bool_decide_spec. split; [by eexists|]. intros _.
      apply elem_of_valores_da_coluna. eauto.
    + split; [done|]. by intros [? [=]].
  - split; [done|]. destruct (valores_da_coluna coluna df); [|simpl; lia].
    by apply elem_of_nil in Hin.
Qed.

Lemma selecionar_todos_os_valores_witness :
  ("Todas" ∉ valores_da_coluna cidade df_cidades) ∧
  filtrar cidade "Todas" (valores_da_coluna cidade df_cidades) df_cidades =
  filter (λ v, is_Some (cidade v)) df_cidades.
Proof.
  assert ("Todas" ∉ valores_da_coluna cidade df_cidades) as Hs.
  { apply (bool_decide_unpack _). by vm_compute. }
  split; [exact Hs|].
  apply (selecionar_todos_os_valores "Todas" cidade df_cidades Hs).
  exists (venda_em 1 (Some "Belo Horizonte")).
  split; [apply list_elem_of_here|by eexists].
Defined.

Lemma elem_of_produtos_disponiveis (df : DataFrame) p :
  p ∈ produtos_disponiveis df ↔ ∃ v, v ∈ df ∧ mercadoria v = p.
Proof.
  unfold produtos_disponiveis.
  rewrite merge_sort_Permutation, elem_of_unique, list_elem_of_fmap.
  naive_solver.
Qed.

(** X10: on a record set that is not empty the two product selectors start
    on products that occur in the records: product A on the smallest
    product identifier and product B on the next one; they start on the
    same product exactly when all records are of one product, which is when
    main stops at the warning instead of analysing. *)
Theorem produtos_iniciais (df : DataFrame) :
  df ≠ [] →
  ∃ pa pb,
    produto_a_inicial df = Some pa ∧ produto_b_inicial df = Some pb ∧
    (∃ v, v ∈ df ∧ mercadoria v = pa) ∧ (∃ v, v ∈ df ∧ mercadoria v = pb) ∧
    pa ≤ pb ∧
    (∀ v, v ∈ df → mercadoria v = pa ∨ pb ≤ mercadoria v) ∧
    (pa = pb ↔ ∀ v, v ∈ df → mercadoria v = pa) ∧
    ((∃ aviso, main_analise df pa pb = ProdutosIguais aviso) ↔
     ∀ v, v ∈ df → mercadoria v = pa).
Proof.
  intros Hdf.
  pose proof (elem_of_produtos_disponiveis df) as Hel.
  assert (StronglySorted Z.le (produtos_disponiveis df)) as Hss
    by apply (StronglySorted_merge_sort Z.le).
  assert (NoDup (produtos_disponiveis df)) as Hnd.
  { unfold produtos_disponiveis. rewrite merge_sort_Permutation.
    apply NoDup_unique. }
  unfold produto_a_inicial, produto_b_inicial, main_analise.
  destruct (produtos_disponiveis df) as [|p0 [|p1 L]] eqn:HL.
  - destruct df as [|v df]; [done|].
    assert (mercadoria v ∈ @nil Z) as Hv
      by (apply Hel; exists v; split; [left|done]).
    by apply elem_of_nil in Hv.
  - assert (∀ v, v ∈ df → mercadoria v = p0) as Hall.
    { intros v Hv. assert (mercadoria v ∈ [p0]) as Hin by (apply Hel; eauto).
      by apply list_elem_of_singleton in Hin. }
    exists p0, p0. cbn [length].
    repeat case_decide; try lia; try done. cbn [lookup list_lookup].
    split_and!; try done.
    + apply Hel. left.
    + apply Hel. left.
    + intros v Hv. left. by apply Hall.
    + split; [done|]. intros _. by eexists.
  - apply StronglySorted_cons in Hss as [Hp0 Hss].
    apply StronglySorted_cons in Hss as [Hp1 _].
    apply NoDup_cons in Hnd as [Hn0 _].
    rewrite Forall_forall in Hp0, Hp1.
    assert (p0 ≤ p1) as Hle by (apply Hp0; left).
    assert (p0 ≠ p1) as Hne by (intros ->; apply Hn0; left).
    assert (∃ v, v ∈ df ∧ mercadoria v = p1) as (v1 & Hv1 & Hm1)
      by (apply Hel; right; left).
    exists p0, p1. cbn [length].
    repeat case_decide; try lia; try done. cbn [lookup list_lookup].
    split_and!; try done.
    + apply Hel. left.
    + by exists v1.
    + intros v Hv. assert (mercadoria v ∈ p0 :: p1 :: L) as Hin
        by (apply Hel; eauto).
      apply elem_of_cons in Hin as [->|Hin]; [by left|right].
      apply elem_of_cons in Hin as [->|Hin]; [done|by apply Hp1].
    + split; [done|]. intros Hall. specialize (Hall v1 Hv1). congruence.
    + split; [by intros [? [=]]|].
      intros Hall. specialize (Hall v1 Hv1). congruence.
Qed.

Lemma produtos_iniciais_witness :
  df_cenario ≠ [] ∧
  produto_a_inicial df_cenario = Some 10 ∧
  produto_b_inicial df_cenario = Some 20 ∧
  ∃ pa pb, produto_a_inicial df_cenario = Some pa ∧
           produto_b_inicial df_cenario = Some pb ∧ pa ≤ pb.
Proof.
  assert (df_cenario ≠ []) as Hne by discriminate.
  split_and!; [exact Hne|reflexivity|reflexivity|].
  destruct (produtos_iniciais df_cenario Hne)
    as (pa & pb & Ha & Hb & _ & _ & Hle & _).
  exists pa, pb. auto.
Defined.

(* ===================================================================== *)
(* Further properties of the detail tables                               *)
(* ===================================================================== *)

Lemma agg_max_ultima_data (P : Venda → Prop) `{∀ v, Decision (P v)}
    (df : DataFrame) :
  (∃ v, v ∈ df ∧ P v) →
  ultima_data P df (agg_max (data_emissao <$> filter P df)).
Proof.
  intros (v & Hv & HPv).
  assert (data_emissao <$> filter P df ≠ []) as Hne.
  { intros Hnil%fmap_nil_inv.
    by apply (filter_nil_not_elem_of P df v) in Hnil. }
  destruct (agg_max_spec _ Hne) as [Hin Hall]. split.
  - apply list_elem_of_fmap in Hin as (w & Hw & Hwin).
    apply list_elem_of_filter in Hwin as [? ?]. by exists w.
  - intros w Hw HPw. rewrite Forall_forall in Hall. apply Hall.
    apply list_elem_of_fmap. exists w. split; [done|].
    by apply list_elem_of_filter.
Qed.

Section ultima_compra.
Context (S : Argsort) (df : DataFrame) (produto_a produto_b : Z).

Lemma ultima_compra_apenas (P : gset Z) (p : Z) linha :
  (∀ c, c ∈ P → comprou df p c) →
  linha ∈ detalhe_produto S df P p →
  ultima_data (λ v, cliente v = Detalhe.Cliente linha ∧ mercadoria v = p)
    df (Detalhe.UltimaCompra linha).
Proof.
  intros HP Hl. apply detalhe_produto_linha in Hl as [Hc Hl].
  remember (Detalhe.Cliente linha) as c eqn:Heqc. clear Heqc.
  rewrite Hl. simpl. apply agg_max_ultima_data.
  destruct (HP _ Hc) as (v & ? & ? & ?). by exists v.
Qed.

Lemma ultima_compra_ambos (P : gset Z) linha :
  (∀ c, c ∈ P → comprou df produto_a c ∧ comprou df produto_b c) →
  linha ∈ ambos_ordenado S df P produto_a produto_b →
  ultima_data (λ v, cliente v = Ambos.Cliente linha)
    df (Ambos.UltimaCompra linha).
Proof.
  intros HP Hl. apply ambos_ordenado_linha in Hl as [Hc Hl]; [|done].
  remember (Ambos.Cliente linha) as c eqn:Heqc. clear Heqc.
  rewrite Hl. simpl. apply agg_max_ultima_data.
  destruct (HP _ Hc) as [(v & ? & ? & ?) _]. by exists v.
Qed.
End ultima_compra.

(** X11: in every detail table the last purchase date of a row is the date
    of one of that customer's transactions and no transaction of the
    customer is later, the transactions being those of the given product in
    the A-only and B-only tables and those of any product in the table of
    both. *)
Theorem ultima_compra_maxima (S : Argsort) (df : DataFrame)
    (produto_a produto_b : Z) :
  let r := analisar_venda_cruzada df produto_a produto_b in
  Forall (λ linha,
            ultima_data (λ v, cliente v = Detalhe.Cliente linha ∧
                              mercadoria v = produto_a)
              df (Detalhe.UltimaCompra linha))
         (linhas_de (df_apenas_a S df r produto_a)) ∧
  Forall (λ linha,
            ultima_data (λ v, cliente v = Detalhe.Cliente linha ∧
                              mercadoria v = produto_b)
              df (Detalhe.UltimaCompra linha))
         (linhas_de (df_apenas_b S df r produto_b)) ∧
  Forall (λ linha,
            ultima_data (λ v, cliente v = Ambos.Cliente linha)
              df (Ambos.UltimaCompra linha))
         (linhas_de (df_ambos S df r produto_a produto_b)).
Proof.
  intros r. split_and!.
  - rewrite linhas_de_df_apenas_a. apply Forall_forall. intros linha.
    apply ultima_compra_apenas.
    intros c Hc. by apply elem_of_apenas_a in Hc as [? _].
  - rewrite linhas_de_df_apenas_b. apply Forall_forall. intros linha.
    apply ultima_compra_apenas.
    intros c Hc. by apply elem_of_apenas_b in Hc as [? _].
  - rewrite linhas_de_df_ambos. apply Forall_forall. intros linha.
    apply ultima_compra_ambos.
    intros c Hc. by apply elem_of_ambos in Hc.
Qed.

Lemma ordenada_desc_cabeca {A} (by_ : A → Z) (x : A) (l : list A) :
  ordenada_desc by_ (x :: l) → ∀ y, y ∈ x :: l → by_ y ≤ by_ x.
Proof.
  intros Hs. assert (Transitive (λ a b : A, by_ b ≤ by_ a))
    by (intros ???; lia).
  apply (Sorted_StronglySorted _) in Hs.
  apply StronglySorted_cons in Hs as [Hx _]. rewrite Forall_forall in Hx.
  intros y [->|Hy]%elem_of_cons; [lia|by apply Hx].
Qed.

(** X12: the first row of a detail table carries the latest date of the
    whole table: no transaction that feeds the table is later than the last
    purchase date of its first row. *)
Theorem primeira_linha_mais_recente (S : Argsort) (df : DataFrame)
    (produto_a produto_b : Z) :
  let r := analisar_venda_cruzada df produto_a produto_b in
  match linhas_de (df_apenas_a S df r produto_a) with
  | [] => True
  | linha :: _ =>
      Forall (λ v, mascara_produto (apenas_a r) produto_a v →
                   data_emissao v ≤ Detalhe.UltimaCompra linha) df
  end ∧
  match linhas_de (df_apenas_b S df r produto_b) with
  | [] => True
  | linha :: _ =>
      Forall (λ v, mascara_produto (apenas_b r) produto_b v →
                   data_emissao v ≤ Detalhe.UltimaCompra linha) df
  end ∧
  match linhas_de (df_ambos S df r produto_a produto_b) with
  | [] => True
  | linha :: _ =>
      Forall (λ v, mascara_clientes (ambos r) v →
                   data_emissao v ≤ Ambos.UltimaCompra linha) df
  end.
Proof.
  intros r.
  assert (∀ c, c ∈ apenas_a r → comprou df produto_a c) as HPa
    by (intros c Hc; by apply elem_of_apenas_a in Hc as [? _]).
  assert (∀ c, c ∈ apenas_b r → comprou df produto_b c) as HPb
    by (intros c Hc; by apply elem_of_apenas_b in Hc as [? _]).
  assert (∀ c, c ∈ ambos r →
               comprou df produto_a c ∧ comprou df produto_b c) as HPab
    by (intros c Hc; by apply elem_of_ambos in Hc).
  split_and!.
  - rewrite linhas_de_df_apenas_a.
    pose proof (detalhe_produto_uma S df _ _ HPa) as (_ & _ & Hcs & _).
    pose proof (sort_values_desc_Sorted S Detalhe.UltimaCompra
                  (detalhe_agrupado df (apenas_a r) produto_a)) as Hs.
    fold (detalhe_produto S df (apenas_a r) produto_a) in Hs.
    destruct (detalhe_produto S df (apenas_a r) produto_a)
      as [|linha T] eqn:HT; [done|].
    apply Forall_forall. intros v Hv [Hc Hm].
    apply Hcs in Hc. apply list_elem_of_fmap in Hc as (l' & Hcl & Hl').
    assert (l' ∈ detalhe_produto S df (apenas_a r) produto_a) as Hl''
      by (by rewrite HT).
    apply (ultima_compra_apenas S df _ _ _ HPa) in Hl'' as [_ Hmax].
    pose proof (ordenada_desc_cabeca _ _ _ Hs l' Hl').
    specialize (Hmax v Hv (conj Hcl Hm)). lia.
  - rewrite linhas_de_df_apenas_b.
    pose proof (detalhe_produto_uma S df _ _ HPb) as (_ & _ & Hcs & _).
    pose proof (sort_values_desc_Sorted S Detalhe.UltimaCompra
                  (detalhe_agrupado df (apenas_b r) produto_b)) as Hs.
    fold (detalhe_produto S df (apenas_b r) produto_b) in Hs.
    destruct (detalhe_produto S df (apenas_b r) produto_b)
      as [|linha T] eqn:HT; [done|].
    apply Forall_forall. intros v Hv [Hc Hm].
    apply Hcs in Hc. apply list_elem_of_fmap in Hc as (l' & Hcl & Hl').
    assert (l' ∈ detalhe_produto S df (apenas_b r) produto_b) as Hl''
      by (by rewrite HT).
    apply (ultima_compra_apenas S df _ _ _ HPb) in Hl'' as [_ Hmax].
    pose proof (ordenada_desc_cabeca _ _ _ Hs l' Hl').
    specialize (Hmax v Hv (conj Hcl Hm)). lia.
  - rewrite linhas_de_df_ambos.
    pose proof (ambos_ordenado_uma S df _ _ _ HPab) as (_ & _ & Hcs & _).
    pose proof (sort_values_desc_Sorted S Ambos.UltimaCompra
                  (ambos_agrupado df (ambos r) produto_a produto_b)) as Hs.
    fold (ambos_ordenado S df (ambos r) produto_a produto_b) in Hs.
    destruct (ambos_ordenado S df (ambos r) produto_a produto_b)
      as [|linha T] eqn:HT; [done|].
    apply Forall_forall. intros v Hv Hc. unfold mascara_clientes in Hc.
    apply Hcs in Hc. apply list_elem_of_fmap in Hc as (l' & Hcl & Hl').
    assert (l' ∈ ambos_ordenado S df (ambos r) produto_a produto_b) as Hl''
      by (by rewrite HT).
    apply (ultima_compra_ambos S df _ _ _ _ HPab) in Hl'' as [_ Hmax].
    pose proof (ordenada_desc_cabeca _ _ _ Hs l' Hl').
    specialize (Hmax v Hv Hcl). lia.
Qed.

Lemma agg_first_do_mais_recente {A} (col : Venda → option A) (l : DataFrame) :
  data_decrescente l → do_mais_recente col l (agg_first (col <$> l)).
Proof.
  unfold data_decrescente.
  induction 1 as [|v l Hl IH Hv]; [by intros w ?%elem_of_nil|].
  rewrite Forall_forall in Hv. rewrite fmap_cons. simpl.
  destruct (col v) as [s|] eqn:Hcv.
  - exists v. split_and!; [left|done|].
    intros w [->|Hw]%elem_of_cons _; [lia|by apply Hv].
  - destruct (agg_first (col <$> l)) as [s|]; simpl in *.
    + destruct IH as (v' & Hv' & Hs & Hmax). exists v'.
      split_and!; [by right|done|].
      intros w [->|Hw]%elem_of_cons Hsome; [|by apply Hmax].
      rewrite Hcv in Hsome. by destruct Hsome.
    + intros w [->|Hw]%elem_of_cons; [done|by apply IH].
Qed.

Lemma agg_last_do_mais_antigo {A} (col : Venda → option A) (l : DataFrame) :
  data_decrescente l → do_mais_antigo col l (agg_last (col <$> l)).
Proof.
  unfold data_decrescente, agg_last.
  induction l as [|x l IH] using rev_ind; [by intros _ w ?%elem_of_nil|].
  intros (Hlx & Hl & _)%StronglySorted_app.
  rewrite fmap_app, reverse_app. simpl.
  destruct (col x) as [s|] eqn:Hcx.
  - exists x. split_and!; [apply elem_of_app; right; left|done|].
    intros w [Hw| ->%list_elem_of_singleton]%elem_of_app _; [|lia].
    apply Hlx; [done|left].
  - specialize (IH Hl).
    destruct (agg_first (reverse (col <$> l))) as [s|]; simpl in *.
    + destruct IH as (v' & Hv' & Hs & Hmin). exists v'.
      split_and!; [apply elem_of_app; by left|done|].
      intros w [Hw| ->%list_elem_of_singleton]%elem_of_app Hsome;
        [by apply Hmin|].
      rewrite Hcx in Hsome. by destruct Hsome.
    + intros w [Hw| ->%list_elem_of_singleton]%elem_of_app;
        [by apply IH|done].
Qed.

Lemma data_decrescente_filter (P : Venda → Prop) `{∀ v, Decision (P v)}
    (df : DataFrame) :
  data_decrescente df → data_decrescente (filter P df).
Proof. apply StronglySorted_filter. Qed.

Lemma data_decrescente_aplicar_filtros (df : DataFrame)
    (c v a r : list string) :
  data_decrescente df → data_decrescente (aplicar_filtros df c v a r).
Proof. rewrite aplicar_filtros_filter. apply data_decrescente_filter. Qed.

(** X13: on records loaded by date descending, as load_data orders them,
    and filtered by any selections, the "Último Vendedor" of a row of a
    detail table is the salesperson of a transaction of the customer that
    is not newer than any of the customer's transactions that have a
    salesperson: the salesperson of the oldest such purchase, not of the
    latest; it is null only when none of them has a salesperson. *)
Theorem ultimo_vendedor_mais_antigo (S : Argsort) (df : DataFrame)
    (cidade_selecionada vendedor_selecionado
     atividade_selecionada rede_selecionada : list string)
    (produto_a produto_b : Z) :
  data_decrescente df →
  let df_filtrado := aplicar_filtros df cidade_selecionada
        vendedor_selecionado atividade_selecionada rede_selecionada in
  let r := analisar_venda_cruzada df_filtrado produto_a produto_b in
  Forall (λ linha,
            do_mais_antigo vendedor
              (filter (λ v, cliente v = Detalhe.Cliente linha ∧
                            mercadoria v = produto_a) df_filtrado)
              (Detalhe.UltimoVendedor linha))
         (linhas_de (df_apenas_a S df_filtrado r produto_a)) ∧
  Forall (λ linha,
            do_mais_antigo vendedor
              (filter (λ v, cliente v = Detalhe.Cliente linha ∧
                            mercadoria v = produto_b) df_filtrado)
              (Detalhe.UltimoVendedor linha))
         (linhas_de (df_apenas_b S df_filtrado r produto_b)) ∧
  Forall (λ linha,
            do_mais_antigo vendedor
              (filter (λ v, cliente v = Ambos.Cliente linha) df_filtrado)
              (Ambos.UltimoVendedor linha))
         (linhas_de (df_ambos S df_filtrado r produto_a produto_b)).
Proof.
  intros Hdf df_filtrado r.
  assert (data_decrescente df_filtrado) as Hdff
    by by apply data_decrescente_aplicar_filtros.
  split_and!.
  - rewrite linhas_de_df_apenas_a. apply Forall_forall. intros linha Hl.
    apply detalhe_produto_linha in Hl as [_ Hl].
    remember (Detalhe.Cliente linha) as c eqn:Heqc. clear Heqc.
    rewrite Hl. simpl.
    by apply agg_last_do_mais_antigo, data_decrescente_filter.
  - rewrite linhas_de_df_apenas_b. apply Forall_forall. intros linha Hl.
    apply detalhe_produto_linha in Hl as [_ Hl].
    remember (Detalhe.Cliente linha) as c eqn:Heqc. clear Heqc.
    rewrite Hl. simpl.
    by apply agg_last_do_mais_antigo, data_decrescente_filter.
  - rewrite linhas_de_df_ambos. apply Forall_forall. intros linha Hl.
    apply ambos_ordenado_linha in Hl as [_ Hl].
    2: { intros c Hc. by apply elem_of_ambos in Hc. }
    remember (Ambos.Cliente linha) as c eqn:Heqc. clear Heqc.
    rewrite Hl. simpl.
    by apply agg_last_do_mais_antigo, data_decrescente_filter.
Qed.

(** X14: on records loaded by date descending and filtered by any
    selections, the legal name, city, activity and network of a row of a
    detail table, and the product description of a row of the A-only and
    B-only tables, are those of a transaction of the customer that is not
    older than any of the customer's transactions that have the value; each
    is null only when none of them has it. *)
Theorem colunas_do_mais_recente (S : Argsort) (df : DataFrame)
    (cidade_selecionada vendedor_selecionado
     atividade_selecionada rede_selecionada : list string)
    (produto_a produto_b : Z) :
  data_decrescente df →
  let df_filtrado := aplicar_filtros df cidade_selecionada
        vendedor_selecionado atividade_selecionada rede_selecionada in
  let r := analisar_venda_cruzada df_filtrado produto_a produto_b in
  let de_a linha := filter (λ v, cliente v = Detalhe.Cliente linha ∧
                                 mercadoria v = produto_a) df_filtrado in
  let de_b linha := filter (λ v, cliente v = Detalhe.Cliente linha ∧
                                 mercadoria v = produto_b) df_filtrado in
  let de_ambos linha :=
    filter (λ v, cliente v = Ambos.Cliente linha) df_filtrado in
  Forall (λ linha,
            do_mais_recente raz_social (de_a linha) (Detalhe.RazaoSocial linha) ∧
            do_mais_recente cidade (de_a linha) (Detalhe.Cidade linha) ∧
            do_mais_recente atividade (de_a linha) (Detalhe.Atividade linha) ∧
            do_mais_recente rede (de_a linha) (Detalhe.Rede linha) ∧
            do_mais_recente descricao_produto (de_a linha)
              (Detalhe.Produto linha))
         (linhas_de (df_apenas_a S df_filtrado r produto_a)) ∧
  Forall (λ linha,
            do_mais_recente raz_social (de_b linha) (Detalhe.RazaoSocial linha) ∧
            do_mais_recente cidade (de_b linha) (Detalhe.Cidade linha) ∧
            do_mais_recente atividade (de_b linha) (Detalhe.Atividade linha) ∧
            do_mais_recente rede (de_b linha) (Detalhe.Rede linha) ∧
            do_mais_recente descricao_produto (de_b linha)
              (Detalhe.Produto linha))
         (linhas_de (df_apenas_b S df_filtrado r produto_b)) ∧
  Forall (λ linha,
            do_mais_recente raz_social (de_ambos linha)
              (Ambos.RazaoSocial linha) ∧
            do_mais_recente cidade (de_ambos linha) (Ambos.Cidade linha) ∧
            do_mais_recente atividade (de_ambos linha)
              (Ambos.Atividade linha) ∧
            do_mais_recente rede (de_ambos linha) (Ambos.Rede linha))
         (linhas_de (df_ambos S df_filtrado r produto_a produto_b)).
Proof.
  intros Hdf df_filtrado r de_a de_b de_ambos.
  assert (data_decrescente df_filtrado) as Hdff
    by by apply data_decrescente_aplicar_filtros.
  split_and!.
  - rewrite linhas_de_df_apenas_a. apply Forall_forall. intros linha Hl.
    apply detalhe_produto_linha in Hl as [_ Hl]. subst de_a. cbv beta.
    remember (Detalhe.Cliente linha) as c eqn:Heqc. clear Heqc.
    rewrite Hl. simpl.
    split_and!; by apply agg_first_do_mais_recente, data_decrescente_filter.
  - rewrite linhas_de_df_apenas_b. apply Forall_forall. intros linha Hl.
    apply detalhe_produto_linha in Hl as [_ Hl]. subst de_b. cbv beta.
    remember (Detalhe.Cliente linha) as c eqn:Heqc. clear Heqc.
    rewrite Hl. simpl.
    split_and!; by apply agg_first_do_mais_recente, data_decrescente_filter.
  - rewrite linhas_de_df_ambos. apply Forall_forall. intros linha Hl.
    apply ambos_ordenado_linha in Hl as [_ Hl].
    2: { intros c Hc. by apply elem_of_ambos in Hc. }
    subst de_ambos. cbv beta.
    remember (Ambos.Cliente linha) as c eqn:Heqc. clear Heqc.
    rewrite Hl. simpl.
    split_and!; by apply agg_first_do_mais_recente, data_decrescente_filter.
Qed.
















(** X16: no customer has a row in two detail tables, the customers with a
    row are those who bought product A or product B, and the three tables
    together have as many rows as the "Total Clientes" of the diagram. *)
Theorem tabelas_cobrem_clientes (S : Argsort) (df : DataFrame)
    (produto_a produto_b : Z) :
  let r := analisar_venda_cruzada df produto_a produto_b in
  let Ca := Detalhe.Cliente <$> linhas_de (df_apenas_a S df r produto_a) in
  let Cb := Detalhe.Cliente <$> linhas_de (df_apenas_b S df r produto_b) in
  let Cab := Ambos.Cliente <$>
               linhas_de (df_ambos S df r produto_a produto_b) in
  NoDup (Ca ++ Cb ++ Cab) ∧
  (∀ c, c ∈ Ca ++ Cb ++ Cab ↔
        comprou df produto_a c ∨ comprou df produto_b c) ∧
  length (Ca ++ Cb ++ Cab) = total_geral r.
Proof.
  intros r Ca Cb Cab.
  destruct (detalhe_produto_uma S df (apenas_a r) produto_a)
    as (Hla & Hna & Hea & _).
  { intros c Hc. by apply elem_of_apenas_a in Hc as [? _]. }
  destruct (detalhe_produto_uma S df (apenas_b r) produto_b)
    as (Hlb & Hnb & Heb & _).
  { intros c Hc. by apply elem_of_apenas_b in Hc as [? _]. }
  destruct (ambos_ordenado_uma S df (ambos r) produto_a produto_b)
    as (Hlab & Hnab & Heab & _).
  { intros c Hc. by apply elem_of_ambos in Hc. }
  rewrite <- linhas_de_df_apenas_a in Hla, Hna, Hea.
  rewrite <- linhas_de_df_apenas_b in Hlb, Hnb, Heb.
  rewrite <- linhas_de_df_ambos in Hlab, Hnab, Heab.
  fold Ca in Hna, Hea. fold Cb in Hnb, Heb. fold Cab in Hnab, Heab.
  split_and!.
  - apply NoDup_app. split_and!; [done| |apply NoDup_app; split_and!; [done| |done]].
    + intros c Hc [Hc'|Hc']%elem_of_app.
      * apply Hea, elem_of_apenas_a in Hc.
        apply Heb, elem_of_apenas_b in Hc'. tauto.
      * apply Hea, elem_of_apenas_a in Hc.
        apply Heab, elem_of_ambos in Hc'. tauto.
    + intros c Hc Hc'.
      apply Heb, elem_of_apenas_b in Hc.
      apply Heab, elem_of_ambos in Hc'. tauto.
  - intros c. rewrite !elem_of_app, Hea, Heb, Heab. subst r.
    rewrite elem_of_apenas_a, elem_of_apenas_b, elem_of_ambos.
    destruct (decide (c ∈ clientes_de df produto_a)) as [Ha|Ha],
             (decide (c ∈ clientes_de df produto_b)) as [Hb|Hb];
      rewrite !elem_of_clientes_de in *; tauto.
  - subst Ca Cb Cab. rewrite !length_app, !length_fmap, Hla, Hlb, Hlab.
    unfold total_geral. subst r. simpl. lia.
Qed.

Lemma NoDup_fmap_inj_elem {A B} (f : A → B) (l : list A) x y :
  NoDup (f <$> l) → x ∈ l → y ∈ l → f x = f y → x = y.
Proof.
  induction l as [|z l IH]; [by intros _ ?%elem_of_nil|].
  rewrite fmap_cons. intros [Hz Hnd]%NoDup_cons.
  intros [->|Hx]%elem_of_cons [->|Hy]%elem_of_cons Hf; [done| | |by apply IH].
  - exfalso. apply Hz. rewrite Hf. by apply list_elem_of_fmap_2.
  - exfalso. apply Hz. rewrite <- Hf. by apply list_elem_of_fmap_2.
Qed.

(* Without two rows of the same date the sorted table does not depend on
   the sorting kind. *)
Lemma sort_values_desc_sem_empates {A} (S1 S2 : Argsort) (by_ : A → Z)
    (l : list A) :
  NoDup (by_ <$> l) →
  sort_values_desc S1 by_ l = sort_values_desc S2 by_ l.
Proof.
  intros Hnd.
  assert (Transitive (λ a b : A, by_ b ≤ by_ a)) by (intros ???; lia).
  apply (Sorted_unique_strong (λ a b : A, by_ b ≤ by_ a)).
  - intros x y Hx%elem_of_sort_values_desc Hy%elem_of_sort_values_desc ??.
    apply (NoDup_fmap_inj_elem by_ l); [done..|lia].
  - apply sort_values_desc_Sorted.
  - apply sort_values_desc_Sorted.
  - by rewrite !sort_values_desc_Permutation.
Qed.

(** X17: table by table, where no two customers of a detail table share
    their last purchase date, that table does not depend on the sorting
    algorithm: any two sorting kinds give the same rows in the same order,
    whatever ties the other two tables have. *)
Theorem tabelas_sem_empates (S1 S2 : Argsort) (df : DataFrame)
    (produto_a produto_b : Z) :
  let r := analisar_venda_cruzada df produto_a produto_b in
  (NoDup (Detalhe.UltimaCompra <$>
            detalhe_agrupado df (apenas_a r) produto_a) →
   df_apenas_a S1 df r produto_a = df_apenas_a S2 df r produto_a) ∧
  (NoDup (Detalhe.UltimaCompra <$>
            detalhe_agrupado df (apenas_b r) produto_b) →
   df_apenas_b S1 df r produto_b = df_apenas_b S2 df r produto_b) ∧
  (NoDup (Ambos.UltimaCompra <$>
            ambos_agrupado df (ambos r) produto_a produto_b) →
   df_ambos S1 df r produto_a produto_b =
   df_ambos S2 df r produto_a produto_b).
Proof.
  intros r. split_and!; intros Hnd.
  - unfold df_apenas_a, detalhe_produto.
    by rewrite (sort_values_desc_sem_empates S1 S2 _ _ Hnd).
  - unfold df_apenas_b, detalhe_produto.
    by rewrite (sort_values_desc_sem_empates S1 S2 _ _ Hnd).
  - unfold df_ambos, ambos_ordenado.
    by rewrite (sort_values_desc_sem_empates S1 S2 _ _ Hnd).
Qed.

Lemma ultimo_vendedor_mais_antigo_witness :
  data_decrescente df_carregado ∧
  Forall (λ linha,
            do_mais_antigo vendedor
              (filter (λ v, cliente v = Detalhe.Cliente linha ∧
                            mercadoria v = 10)
                 (aplicar_filtros df_carregado
                    ["Todas"] ["Todos"] ["Todas"] ["Todas"]))
              (Detalhe.UltimoVendedor linha))
         (linhas_de
            (df_apenas_a kind_estavel
               (aplicar_filtros df_carregado
                  ["Todas"] ["Todos"] ["Todas"] ["Todas"])
               (analisar_venda_cruzada
                  (aplicar_filtros df_carregado
                     ["Todas"] ["Todos"] ["Todas"] ["Todas"]) 10 20)
               10)).
Proof.
  assert (data_decrescente df_carregado) as H.
  { unfold data_decrescente. apply (bool_decide_unpack _). by vm_compute. }
  split; [exact H|].
  exact (proj1 (ultimo_vendedor_mais_antigo kind_estavel df_carregado
                  ["Todas"] ["Todos"] ["Todas"] ["Todas"] 10 20 H)).
Defined.

Lemma colunas_do_mais_recente_witness :
  data_decrescente df_carregado ∧
  Forall (λ linha,
            do_mais_recente raz_social
              (filter (λ v, cliente v = Detalhe.Cliente linha ∧
                            mercadoria v = 10)
                 (aplicar_filtros df_carregado
                    ["Todas"] ["Todos"] ["Todas"] ["Todas"]))
              (Detalhe.RazaoSocial linha))
         (linhas_de
            (df_apenas_a kind_estavel
               (aplicar_filtros df_carregado
                  ["Todas"] ["Todos"] ["Todas"] ["Todas"])
               (analisar_venda_cruzada
                  (aplicar_filtros df_carregado
                     ["Todas"] ["Todos"] ["Todas"] ["Todas"]) 10 20)
               10)).
Proof.
  assert (data_decrescente df_carregado) as H.
  { unfold data_decrescente. apply (bool_decide_unpack _). by vm_compute. }
  split; [exact H|].
  eapply Forall_impl.
  - exact (proj1 (colunas_do_mais_recente kind_estavel df_carregado
                    ["Todas"] ["Todos"] ["Todas"] ["Todas"] 10 20 H)).
  - intros linha Hl. exact (proj1 Hl).
Defined.

Lemma tabelas_sem_empates_witness :
  NoDup (Detalhe.UltimaCompra <$>
           detalhe_agrupado df_carregado
             (apenas_a (analisar_venda_cruzada df_carregado 10 20)) 10) ∧
  df_apenas_a kind_estavel df_carregado
    (analisar_venda_cruzada df_carregado 10 20) 10 =
  df_apenas_a kind_inverte df_carregado
    (analisar_venda_cruzada df_carregado 10 20) 10.
Proof.
  assert (NoDup (Detalhe.UltimaCompra <$>
           detalhe_agrupado df_carregado
             (apenas_a (analisar_venda_cruzada df_carregado 10 20)) 10)) as Ha
    by (apply (bool_decide_unpack _); by vm_compute).
  split; [exact Ha|].
  exact (proj1 (tabelas_sem_empates kind_estavel kind_inverte df_carregado
                  10 20) Ha).
Defined.

(* ===================================================================== *)
(* The loaded sample, evaluated                                          *)
(* ===================================================================== *)

Module Carregado.
(* Customer 1 comes first (last purchase on day 9), with the legal name of
   the newest transaction and the salesperson of the oldest one.  No two
   rows share a date, so every sorting kind gives this table. *)
Example tabela_apenas_a :
  (λ l, (Detalhe.Cliente l, Detalhe.UltimaCompra l, Detalhe.RazaoSocial l,
         Detalhe.UltimoVendedor l, Detalhe.QtdTotal l)) <$>
    linhas_de (df_apenas_a kind_estavel df_carregado
                 (analisar_venda_cruzada df_carregado 10 20) 10)
  = [(1, 9, Some "Loja Nova", Some "34", SomaInt64 2);
     (2, 7, None, None, SomaInt64 1)].
Proof. by vm_compute. Qed.

Example produtos_de_inicio :
  produtos_disponiveis df_cenario = [10; 20] ∧
  produto_a_inicial df_cenario = Some 10 ∧
  produto_b_inicial df_cenario = Some 20 ∧
  produto_a_inicial df_carregado = Some 10 ∧
  produto_b_inicial df_carregado = Some 10 ∧
  produto_a_inicial [] = None ∧ produto_b_inicial [] = None.
Proof. by vm_compute. Qed.

Example opcoes_de_cidade :
  cidades_disponiveis df_cidades = ["Todas"; "Belo Horizonte"; "Contagem"].
Proof. by vm_compute. Qed.

Example todas_as_cidades_marcadas :
  filtrar cidade "Todas" ["Belo Horizonte"; "Contagem"] df_cidades =
  [venda_em 1 (Some "Belo Horizonte"); venda_em 2 (Some "Contagem");
   venda_em 4 (Some "Belo Horizonte")].
Proof. by vm_compute. Qed.

Example figuras_do_cenario :
  let r := analisar_venda_cruzada df_cenario 10 20 in
  venn_subsets r = (1, 0, 1)%nat ∧ valores r = [1; 1; 0]%nat ∧
  total_geral r = 2%nat.
Proof. by vm_compute. Qed.
End Carregado.
